(** * Reconciliation check of the bank-statement parser

    A shallow embedding of [performReconciliation], the reconciliation
    step of the statement-parsing API route, and of the JavaScript
    primitives it relies on: IEEE-754 binary64 numbers,
    [Number.prototype.toFixed], [parseFloat], [Math.abs],
    [Array.prototype.filter] and [Array.prototype.reduce].

    JavaScript numbers are modelled by the Standard Library's executable
    specification of binary64 ([spec_float] with [prec = 53] and
    [emax = 1024]); nothing is approximated by rationals or reals.
    Exceptions and console output are explicit: a computation returns a
    value or an exception, together with what it wrote to the console. *)

From Stdlib Require Import ZArith NArith QArith List String Ascii Bool Lia Permutation.
From Stdlib Require Import DecimalString.
From Stdlib Require Import Floats.SpecFloat.
Import ListNotations.

Local Open Scope Z_scope.

(** ** JavaScript numbers *)

Module JSNumber.

Definition prec : Z := 53.
Definition emax : Z := 1024.

(** A JavaScript [number]: a binary64 value. *)
Definition number : Type := spec_float.

Definition NaN : number := S754_nan.
Definition Infinity : number := S754_infinity false.
Definition pos_zero : number := S754_zero false.
Definition neg_zero : number := S754_zero true.

(** The values of the type are the canonical representations. *)
Definition valid (x : number) : bool := valid_binary prec emax x.

Definition is_finite (x : number) : bool :=
  match x with
  | S754_zero _ | S754_finite _ _ _ => true
  | _ => false
  end.

(** [x + y], [x - y], [-x], [Math.abs(x)], [x < y], [x == y], [isNaN(x)]. *)
Definition add (x y : number) : number := SFadd prec emax x y.
Definition sub (x y : number) : number := SFsub prec emax x y.
Definition neg (x : number) : number := SFopp x.
Definition Math_abs (x : number) : number := SFabs x.
Definition lt (x y : number) : bool := SFltb x y.
Definition eq (x y : number) : bool := SFeqb x y.
Definition isNaN (x : number) : bool :=
  match x with S754_nan => true | _ => false end.

(** The number denoted by a decimal literal or decimal string of value
    [num / den] ([num >= 0], [den > 0]) with sign [neg]: the binary64
    value nearest to the quotient, ties to even.  The quotient is taken
    exactly and rounded once, as the division of [SFdiv] is. *)
Definition of_ratio (neg : bool) (num den : Z) : number :=
  let '(q, e, l) := SFdiv_core_binary prec emax num 0 den 0 in
  binary_round_aux prec emax neg q e l.

(** An integer literal. *)
Definition of_Z (z : Z) : number := binary_normalize prec emax z 0 false.

End JSNumber.
Import JSNumber.

(** ** The strings [toFixed] returns

    [toFixed] returns one of four shapes of string; [parseFloat] reads
    each of them back.  The digits are kept as the integer they spell. *)

Inductive NumericString : Type :=
| StrNaN                                   (* "NaN" *)
| StrInfinity (neg : bool)                 (* "Infinity", "-Infinity" *)
| StrFixed (neg : bool) (n : Z) (f : Z)    (* sign, then the digits of n with
                                              a point before the last f *)
| StrToString (x : number).                (* Number::toString(x), |x| >= 1e21 *)

(** ** Exceptions and the console *)

Inductive exn : Type := TypeError | RangeError.

Inductive console_event : Type :=
| LogPerforming
| WarnCannotReconcile
| WarnExcluded (count : nat)
| LogDetails (start : number) (sumTx calcEnd statedEnd diff : NumericString)
             (matches : bool).

(** A computation writes to the console and returns a value or throws. *)
Definition M (A : Type) : Type := (exn + A) * list console_event.

Definition ret {A} (a : A) : M A := (inr a, []).
Definition throw {A} (e : exn) : M A := (inl e, []).
Definition console (ev : console_event) : M unit := (inr tt, [ev]).

Definition bind {A B} (m : M A) (k : A -> M B) : M B :=
  match m with
  | (inl e, w) => (inl e, w)
  | (inr a, w) => let '(r, w') := k a in (r, w ++ w')
  end.

Notation "x <- m ;; k" := (bind m (fun x => k))
  (at level 61, m at next level, right associativity).
Notation "m ;;; k" := (bind m (fun _ => k))
  (at level 61, right associativity).

(** The value a computation returns, when it does not throw. *)
Definition returned {A} (m : M A) : option A :=
  match fst m with inr a => Some a | inl _ => None end.

Definition console_of {A} (m : M A) : list console_event := snd m.

(** ** Number.prototype.toFixed and parseFloat

    [x.toFixed(f)] throws a [RangeError] unless [0 <= f <= 100]; it spells
    a non-finite [x] by name; for [|x| >= 10^21] it is [Number::toString];
    otherwise it writes the sign of [x] (none for a zero) and the digits of
    the integer [n] nearest to [|x| * 10^f], the larger one on a tie, with a
    point before the last [f] digits.  [parseFloat] returns the binary64
    value nearest to the decimal it reads, [-0] for ["-0.00"], and reads
    [Number::toString(x)] back as [x]. *)

(** The integer [n] for which [n / 10^f - x] is closest to zero, the
    larger one of two, for [x = m * 2^e > 0]. *)
Definition nearest_scaled (f : Z) (m : positive) (e : Z) : Z :=
  match e with
  | Zneg p => (2 * 10 ^ f * Zpos m + 2 ^ Zpos p) / 2 ^ (Zpos p + 1)
  | _ => 10 ^ f * Zpos m * 2 ^ e
  end.

(** [x >= 10^21] for [x = m * 2^e]. *)
Definition at_least_1e21 (m : positive) (e : Z) : bool :=
  match e with
  | Zneg p => 10 ^ 21 * 2 ^ Zpos p <=? Zpos m
  | _ => 10 ^ 21 <=? Zpos m * 2 ^ e
  end.

Definition toFixed (x : number) (fractionDigits : Z) : M NumericString :=
  if (fractionDigits <? 0) || (100 <? fractionDigits) then throw RangeError
  else
    match x with
    | S754_nan => ret StrNaN
    | S754_infinity s => ret (StrInfinity s)
    | S754_zero _ => ret (StrFixed false 0 fractionDigits)
    | S754_finite s m e =>
        if at_least_1e21 m e then ret (StrToString x)
        else ret (StrFixed s (nearest_scaled fractionDigits m e) fractionDigits)
    end.

Definition parseFloat (s : NumericString) : number :=
  match s with
  | StrNaN => NaN
  | StrInfinity neg => S754_infinity neg
  | StrFixed neg n f => of_ratio neg n (10 ^ f)
  | StrToString x => x
  end.

(** ** Data model

    The balances have their declared type, [number | null].  The code
    tests the type of an [amount] and the presence of the transaction
    array at run time, so an amount is any value [JSON.parse] can produce
    and the array may be missing. *)

(** A value as [JSON.parse] can produce it in an [amount] field;
    [JUndefined] is what reading a missing field gives. *)
Inductive jsval : Type :=
| JUndefined
| JNull
| JBool (b : bool)
| JNumber (x : number)
| JString (s : string)
| JObject.

Definition typeof_is_number (v : jsval) : bool :=
  match v with JNumber _ => true | _ => false end.

(** The number held by a value whose [typeof] is ["number"]. *)
Definition number_value (v : jsval) : number :=
  match v with JNumber x => x | _ => NaN end.

Record Transaction : Type := {
  date : string;
  description : string;
  amount : jsval
}.

Record ExtractedData : Type := {
  accountHolderName : option string;
  accountHolderAddress : option string;
  statementDate : option string;
  transactions : option (list Transaction);
  startingBalance : option number;
  endingBalance : option number
}.

Record ReconciliationResult : Type := {
  calculatedEndingBalance : option number;
  difference : option number;
  matches : bool
}.

(** ** performReconciliation *)

(** [v === null]. *)
Definition is_null {A} (v : option A) : bool :=
  match v with None => true | Some _ => false end.

(** [!v] for [v] an array or [null]: an array, even an empty one, is truthy. *)
Definition logical_not {A} (v : option (list A)) : bool :=
  match v with None => true | Some _ => false end.

(** Reading a property or calling a method of [v] throws on [null]. *)
Definition deref {A} (v : option A) : M A :=
  match v with Some a => ret a | None => throw TypeError end.

(** [ToNumber] of a [number | null] operand of [+]. *)
Definition to_number (v : option number) : number :=
  match v with Some x => x | None => pos_zero end.

(** [tx => typeof tx.amount === 'number' && !isNaN(tx.amount)] *)
Definition valid_amount (tx : Transaction) : bool :=
  typeof_is_number (amount tx) && negb (isNaN (number_value (amount tx))).

(** [(sum, tx) => sum + tx.amount] *)
Definition add_amount (sum : number) (tx : Transaction) : number :=
  add sum (number_value (amount tx)).

(** The literal [0.015]. *)
Definition tolerance : number := of_ratio false 15 1000.

Definition performReconciliation (data : ExtractedData) : M ReconciliationResult :=
  console LogPerforming ;;;
  if is_null (startingBalance data) || is_null (endingBalance data)
     || logical_not (transactions data)
  then
    console WarnCannotReconcile ;;;
    ret {| calculatedEndingBalance := None; difference := None; matches := false |}
  else
    txs <- deref (transactions data) ;;
    let validTransactions := filter valid_amount txs in
    (if negb (Nat.eqb (List.length validTransactions) (List.length txs))
     then console (WarnExcluded (List.length txs - List.length validTransactions))
     else ret tt) ;;;
    let sumOfTransactions := fold_left add_amount validTransactions pos_zero in
    calcStr <- toFixed (add (to_number (startingBalance data)) sumOfTransactions) 2 ;;
    let calculatedEndingBalance := parseFloat calcStr in
    endB <- deref (endingBalance data) ;;
    statedStr <- toFixed endB 2 ;;
    let statedEndingBalance := parseFloat statedStr in
    diffStr <- toFixed (sub statedEndingBalance calculatedEndingBalance) 2 ;;
    let difference := parseFloat diffStr in
    let matches := lt (Math_abs difference) tolerance in
    sumS <- toFixed sumOfTransactions 2 ;;
    calcS <- toFixed calculatedEndingBalance 2 ;;
    statedS <- toFixed statedEndingBalance 2 ;;
    diffS <- toFixed difference 2 ;;
    console (LogDetails (to_number (startingBalance data)) sumS calcS statedS diffS matches) ;;;
    ret {| calculatedEndingBalance := Some calculatedEndingBalance;
           difference := Some difference;
           matches := matches |}.

(** ** Derived forms used by the statements *)

(** The string [toFixed x 2] returns. *)
Definition toFixed2 (x : number) : NumericString :=
  match x with
  | S754_nan => StrNaN
  | S754_infinity s => StrInfinity s
  | S754_zero _ => StrFixed false 0 2
  | S754_finite s m e =>
      if at_least_1e21 m e then StrToString x
      else StrFixed s (nearest_scaled 2 m e) 2
  end.

(** [parseFloat(x.toFixed(2))], the rounding to 2 decimal places of the code. *)
Definition round2 (x : number) : number := parseFloat (toFixed2 x).

(** [validTransactions.reduce((sum, tx) => sum + tx.amount, 0)] on the
    filtered list. *)
Definition sumOfTransactions (txs : list Transaction) : number :=
  fold_left add_amount (filter valid_amount txs) pos_zero.

(** [Math.abs(difference) < 0.015] *)
Definition within_tolerance (difference : number) : bool :=
  lt (Math_abs difference) tolerance.

(** The result returned when data is missing. *)
Definition insufficient : ReconciliationResult :=
  {| calculatedEndingBalance := None; difference := None; matches := false |}.

(** The result computed from present balances and a transaction list. *)
Definition reconciled (start stated : number) (txs : list Transaction)
  : ReconciliationResult :=
  let calc := round2 (add start (sumOfTransactions txs)) in
  let diff := round2 (sub (round2 stated) calc) in
  {| calculatedEndingBalance := Some calc;
     difference := Some diff;
     matches := within_tolerance diff |}.

(** The console output of a full reconciliation. *)
Definition excluded_warning (txs : list Transaction) : list console_event :=
  let k := (List.length txs - List.length (filter valid_amount txs))%nat in
  if negb (Nat.eqb (List.length (filter valid_amount txs)) (List.length txs))
  then [WarnExcluded k] else [].

Definition details (start stated : number) (txs : list Transaction) : console_event :=
  let r := reconciled start stated txs in
  LogDetails start (toFixed2 (sumOfTransactions txs))
    (toFixed2 (round2 (add start (sumOfTransactions txs))))
    (toFixed2 (round2 stated))
    (toFixed2 (round2 (sub (round2 stated) (round2 (add start (sumOfTransactions txs))))))
    (matches r).

(** Builders for concrete inputs. *)
Definition tx_of (v : jsval) : Transaction :=
  {| date := ""; description := ""; amount := v |}.

Definition statement (s e : option number) (l : option (list Transaction))
  : ExtractedData :=
  {| accountHolderName := None; accountHolderAddress := None;
     statementDate := None;
     transactions := l; startingBalance := s; endingBalance := e |}.

Definition with_transactions (data : ExtractedData) (l : list Transaction)
  : ExtractedData :=
  {| accountHolderName := accountHolderName data;
     accountHolderAddress := accountHolderAddress data;
     statementDate := statementDate data;
     transactions := Some l;
     startingBalance := startingBalance data;
     endingBalance := endingBalance data |}.

(** A decimal literal with two (three) fractional digits, given in cents
    (thousandths); a negative one is the negation of the positive literal. *)
Definition cents (z : Z) : number :=
  if z <? 0 then neg (of_ratio false (- z) 100) else of_ratio false z 100.


(** ** Definitions used by the statements *)

(** The canonical exponent of binary64 for a magnitude of [k] binary digits. *)
Definition fexp64 (k : Z) : Z := fexp prec emax k.

(** The values [round2] can return: the non-finite ones, a zero, one
    cent of either sign, or a value of exponent at least [-58] (two
    cents or more in magnitude). *)
Inductive round2_value : number -> Prop :=
| R2_nan : round2_value NaN
| R2_infinity s : round2_value (S754_infinity s)
| R2_zero s : round2_value (S754_zero s)
| R2_cent s : round2_value (of_ratio s 1 100)
| R2_more s m e : -58 <= e -> round2_value (S754_finite s m e).

(** [d == -0.01 || d == 0 || d == 0.01] *)
Definition at_most_one_cent (d : number) : bool :=
  eq d (cents (-1)) || eq d pos_zero || eq d (cents 1).

(** An amount that is a finite number. *)
Definition finite_amount (tx : Transaction) : bool :=
  match amount tx with JNumber x => is_finite x | _ => false end.

(** Every JavaScript number is a binary64 value: its representation is
    canonical. *)
Definition wf_amount (tx : Transaction) : Prop :=
  match amount tx with JNumber x => valid x = true | _ => True end.

(** Two readings of "the amounts sum exactly to [endingBalance -
    startingBalance]": in binary64 arithmetic, as the code adds, and in
    exact rational arithmetic on the values the numbers denote. *)
Definition sums_in_binary64 (s e : number) (l : list Transaction) : bool :=
  eq (sumOfTransactions l) (sub e s).

(** The rational a finite number denotes. *)
Definition exact_value (x : number) : option Q :=
  match x with
  | S754_zero _ => Some 0%Q
  | S754_finite s m e => Some (inject_Z (cond_Zopp s (Zpos m)) * 2 ^ e)%Q
  | _ => None
  end.

(** The exact counterpart of [add_amount]; an infinite amount has no
    rational value. *)
Definition add_exact (acc : option Q) (tx : Transaction) : option Q :=
  match acc, exact_value (number_value (amount tx)) with
  | Some a, Some v => Some (a + v)%Q
  | _, _ => None
  end.

Definition exact_sum (l : list Transaction) : option Q :=
  fold_left add_exact (filter valid_amount l) (Some 0%Q).


Definition sums_exactly (s e : number) (l : list Transaction) : bool :=
  match exact_sum l, exact_value e, exact_value s with
  | Some t, Some ve, Some vs => Qeq_bool t (ve - vs)
  | _, _, _ => false
  end.

(** The amounts that are numbers other than NaN, in the order of the
    list: strings, booleans, [null], objects, missing amounts and NaN are
    left out, an infinite amount is not. *)
Definition numeric_amounts (l : list Transaction) : list number :=
  flat_map (fun tx => match amount tx with
                      | JNumber x => if isNaN x then [] else [x]
                      | _ => []
                      end) l.

(** Amounts in whole cents: their exact sum, and the sum of their
    magnitudes. *)
Definition total (zl : list Z) : Z := fold_right Z.add 0 zl.

Definition turnover (zl : list Z) : Z := total (map Z.abs zl).

(** The value of a finite number in units of [2^-1074], the least
    positive binary64 value: every finite value is a whole number of
    them. *)
Definition scaled (x : number) : Z :=
  match x with
  | S754_finite s m e => cond_Zopp s (Zpos m * 2 ^ (e + 1074))
  | _ => 0
  end.

(** A finite binary64 value in canonical representation. *)
Definition finite_valid (x : number) : Prop :=
  is_finite x = true /\ valid x = true.

(** The statement of the worked example: 1200.00 + 500.00 - 150.00 = 1550.00. *)
Definition example_statement : ExtractedData :=
  statement (Some (cents 120000)) (Some (cents 155000))
    (Some [tx_of (JNumber (cents 50000)); tx_of (JNumber (cents (-15000)))]).

(** The same with a withdrawal of 150.01: one cent short. *)
Definition example_one_cent : ExtractedData :=
  statement (Some (cents 120000)) (Some (cents 155000))
    (Some [tx_of (JNumber (cents 50000)); tx_of (JNumber (cents (-15001)))]).

(** No starting balance. *)
Definition example_missing : ExtractedData :=
  statement None (Some (cents 155000)) (Some []).

(** * The rest of the API route and the page

    The route handler [POST], [getDetailsFromLlm] and the page's event
    handlers, on the values they receive at run time.  What the PDF
    library, the model and the network return is given to each function as
    an argument; their console output is not modelled. *)

(** ** JavaScript strings *)

Module JSString.

(** A string is a sequence of UTF-16 code units. *)
Definition jsstring : Type := list N.

(** A literal of ASCII characters. *)
Definition lit (s : string) : jsstring :=
  map N_of_ascii (list_ascii_of_string s).

(** [a === b] *)
Fixpoint str_eqb (a b : jsstring) : bool :=
  match a, b with
  | [], [] => true
  | x :: a', y :: b' => N.eqb x y && str_eqb a' b'
  | _, _ => false
  end.

(** ECMAScript's WhiteSpace and LineTerminator code points. *)
Definition is_white_space (c : N) : bool :=
  existsb (N.eqb c)
    [9; 10; 11; 12; 13; 32; 160; 5760; 8232; 8233; 8239; 8287; 12288; 65279]%N
  || (N.leb 8192 c && N.leb c 8202).

Fixpoint trim_start (s : jsstring) : jsstring :=
  match s with
  | c :: s' => if is_white_space c then trim_start s' else s
  | [] => []
  end.

(** [s.trim()] *)
Definition trim (s : jsstring) : jsstring :=
  rev (trim_start (rev (trim_start s))).

(** [s.startsWith(p)] *)
Definition startsWith (s p : jsstring) : bool :=
  str_eqb (firstn (List.length p) s) p.

(** [s.substring(0, n) + (s.length > n ? "..." : "")] *)
Definition snippet (n : nat) (s : jsstring) : jsstring :=
  firstn n s ++ (if Nat.ltb n (List.length s) then lit "..." else []).

(** The decimal digits of an integer, as [String(n)] writes them. *)
Definition decimal (n : nat) : jsstring :=
  lit (NilZero.string_of_uint (Nat.to_uint n)).

End JSString.
Import JSString.

(** ** JSON values

    The values [JSON.parse] returns.  An object keeps its properties in
    insertion order; reading a missing property gives [undefined], here
    [None]. *)

#[warnings="-register-all"]
Inductive json : Type :=
| JsonNull
| JsonBool (b : bool)
| JsonNumber (x : number)
| JsonString (s : jsstring)
| JsonArray (elements : list json)
| JsonObject (properties : list (jsstring * json)).

Definition object : Type := list (jsstring * json).

(** [o[k]] *)
Fixpoint get_property (o : object) (k : jsstring) : option json :=
  match o with
  | [] => None
  | (k', v) :: o' => if str_eqb k' k then Some v else get_property o' k
  end.

(** [k in o] *)
Definition has_property (o : object) (k : jsstring) : bool :=
  match get_property o k with Some _ => true | None => false end.

(** [o[k] = v]: an existing property keeps its place, a new one goes last. *)
Fixpoint set_property (o : object) (k : jsstring) (v : json) : object :=
  match o with
  | [] => [(k, v)]
  | (k', v') :: o' =>
      if str_eqb k' k then (k', v) :: o' else (k', v') :: set_property o' k v
  end.

(** The conversion to boolean of [!v], [v && ...] and [v || ...]. *)
Definition truthy (v : option json) : bool :=
  match v with
  | None | Some JsonNull => false
  | Some (JsonBool b) => b
  | Some (JsonNumber x) =>
      match x with S754_zero _ | S754_nan => false | _ => true end
  | Some (JsonString s) => match s with [] => false | _ => true end
  | Some (JsonArray _) | Some (JsonObject _) => true
  end.

(** [v === null] *)
Definition strict_null (v : option json) : bool :=
  match v with Some JsonNull => true | _ => false end.

(** [Array.isArray(v)] *)
Definition isArray (v : option json) : bool :=
  match v with Some (JsonArray _) => true | _ => false end.

(** The own enumerable properties of a parsed value: those of an object,
    the indices of an array; a primitive has none to search with [in]. *)
Definition own_properties (v : json) : option object :=
  match v with
  | JsonObject o => Some o
  | JsonArray l => Some (combine (map decimal (seq 0 (List.length l))) l)
  | _ => None
  end.

(** ** Errors on ill-typed data

    The places where the engine throws a [TypeError] when the parsed
    response does not have the declared types, and the errors of the
    built-ins. *)

Inductive type_error : Type :=
| InOnPrimitive          (* "field" in v, for v not an object *)
| FilterNotFunction      (* data.transactions.filter, not an array *)
| AmountOfNull           (* tx.amount, for tx null *)
| SumNotNumber           (* (data.startingBalance + sum).toFixed, a string *)
| EndingNotNumber        (* data.endingBalance.toFixed, not a number *)
| StartsWithNotFunction  (* accountHolderName.startsWith, not a string *)
| Builtin (e : exn).

(** A computation that returns a value or throws. *)
Definition R (A : Type) : Type := type_error + A.

Definition bindR {A B} (m : R A) (k : A -> R B) : R B :=
  match m with inl e => inl e | inr a => k a end.

Notation "x <~ m ;; k" := (bindR m (fun x => k))
  (at level 61, m at next level, right associativity).

(** The outcome of a built-in of the reconciliation, without its console. *)
Definition builtin {A} (m : M A) : R A :=
  match fst m with inl e => inl (Builtin e) | inr a => inr a end.

(** ** performReconciliation on a parsed response

    The same function on the object [getDetailsFromLlm] really returns:
    the cast to [ExtractedData] checks nothing. *)

(** [tx.amount] *)
Definition amount_of (tx : json) : R (option json) :=
  match tx with
  | JsonNull => inl AmountOfNull
  | JsonObject o => inr (get_property o (lit "amount"))
  | _ => inr None
  end.

(** [typeof v === 'number' && !isNaN(v)] *)
Definition is_valid_number (v : option json) : bool :=
  match v with Some (JsonNumber x) => negb (isNaN x) | _ => false end.

(** [txs.filter(tx => typeof tx.amount === 'number' && !isNaN(tx.amount))] *)
Fixpoint filter_valid (txs : list json) : R (list json) :=
  match txs with
  | [] => inr []
  | tx :: rest =>
      a <~ amount_of tx ;;
      kept <~ filter_valid rest ;;
      inr (if is_valid_number a then tx :: kept else kept)
  end.

(** [data.transactions.filter]: only an array has the method. *)
Definition array_of (v : option json) : R (list json) :=
  match v with Some (JsonArray l) => inr l | _ => inl FilterNotFunction end.

(** [tx.amount] of a transaction that passed the filter. *)
Definition amount_number (tx : json) : number :=
  match tx with
  | JsonObject o =>
      match get_property o (lit "amount") with
      | Some (JsonNumber x) => x
      | _ => NaN
      end
  | _ => NaN
  end.

(** The receiver of [(data.startingBalance + sum).toFixed]: [undefined]
    adds as NaN, [null] as 0, a boolean as 0 or 1; with a string, an array
    or an object the sum is a string, or has no primitive value, and the
    call throws. *)
Definition plus_sum (start : option json) (sum : number) : R number :=
  match start with
  | None => inr (add NaN sum)
  | Some JsonNull => inr (add pos_zero sum)
  | Some (JsonBool b) => inr (add (if b then of_Z 1 else pos_zero) sum)
  | Some (JsonNumber x) => inr (add x sum)
  | Some (JsonString _) | Some (JsonArray _) | Some (JsonObject _) =>
      inl SumNotNumber
  end.

(** The receiver of [data.endingBalance.toFixed]. *)
Definition ending_number (v : option json) : R number :=
  match v with Some (JsonNumber x) => inr x | _ => inl EndingNotNumber end.

Definition performReconciliationJson (data : object) : R ReconciliationResult :=
  if strict_null (get_property data (lit "startingBalance"))
     || strict_null (get_property data (lit "endingBalance"))
     || negb (truthy (get_property data (lit "transactions")))
  then
    inr {| calculatedEndingBalance := None; difference := None; matches := false |}
  else
    txs <~ array_of (get_property data (lit "transactions")) ;;
    validTransactions <~ filter_valid txs ;;
    let sumOfTransactions :=
      fold_left (fun sum tx => add sum (amount_number tx)) validTransactions pos_zero in
    total <~ plus_sum (get_property data (lit "startingBalance")) sumOfTransactions ;;
    calcStr <~ builtin (toFixed total 2) ;;
    let calculatedEndingBalance := parseFloat calcStr in
    endB <~ ending_number (get_property data (lit "endingBalance")) ;;
    statedStr <~ builtin (toFixed endB 2) ;;
    let statedEndingBalance := parseFloat statedStr in
    diffStr <~ builtin (toFixed (sub statedEndingBalance calculatedEndingBalance) 2) ;;
    let difference := parseFloat diffStr in
    let matches := lt (Math_abs difference) tolerance in
    inr {| calculatedEndingBalance := Some calculatedEndingBalance;
           difference := Some difference;
           matches := matches |}.

(** A computation returned. *)
Definition returns {A} (m : R A) : bool :=
  match m with inr _ => true | inl _ => false end.

(** The parsed response has the types the reconciliation needs: an array
    of transactions none of which is [null], a starting balance that adds
    as a number, and a number as ending balance. *)
Definition no_null_element (l : list json) : bool :=
  forallb (fun tx => match tx with JsonNull => false | _ => true end) l.

Definition adds_as_number (v : option json) : bool :=
  match v with
  | Some (JsonString _) | Some (JsonArray _) | Some (JsonObject _) => false
  | _ => true
  end.

Definition reconcilable (data : object) : bool :=
  match get_property data (lit "transactions"),
        get_property data (lit "endingBalance") with
  | Some (JsonArray l), Some (JsonNumber _) =>
      no_null_element l
      && adds_as_number (get_property data (lit "startingBalance"))
  | _, _ => false
  end.

(** The result [performReconciliation] returns on typed data. *)
Definition reconciliation_of (data : ExtractedData) : ReconciliationResult :=
  match startingBalance data, endingBalance data, transactions data with
  | Some s, Some e, Some l => reconciled s e l
  | _, _, _ => insufficient
  end.

(** The object a typed [ExtractedData] is at run time. *)
Definition json_of_amount (v : jsval) : option json :=
  match v with
  | JUndefined => None
  | JNull => Some JsonNull
  | JBool b => Some (JsonBool b)
  | JNumber x => Some (JsonNumber x)
  | JString s => Some (JsonString (lit s))
  | JObject => Some (JsonObject [])
  end.

Definition json_of_transaction (tx : Transaction) : json :=
  JsonObject
    ([(lit "date", JsonString (lit (date tx)));
      (lit "description", JsonString (lit (description tx)))]
     ++ match json_of_amount (amount tx) with
        | Some v => [(lit "amount", v)]
        | None => []
        end).

Definition json_of_string (s : option string) : json :=
  match s with Some s => JsonString (lit s) | None => JsonNull end.

Definition json_of_number (x : option number) : json :=
  match x with Some x => JsonNumber x | None => JsonNull end.

Definition json_of_data (data : ExtractedData) : object :=
  [(lit "accountHolderName", json_of_string (accountHolderName data));
   (lit "accountHolderAddress", json_of_string (accountHolderAddress data));
   (lit "statementDate", json_of_string (statementDate data));
   (lit "transactions",
     match transactions data with
     | Some l => JsonArray (map json_of_transaction l)
     | None => JsonNull
     end);
   (lit "startingBalance", json_of_number (startingBalance data));
   (lit "endingBalance", json_of_number (endingBalance data))].

(** ** getDetailsFromLlm *)

(** What the call of the model and [JSON.parse] of its answer give. *)
Inductive llm_outcome : Type :=
| LlmThrew (message : jsstring)  (* generateContent, text() or JSON.parse threw *)
| LlmEmpty                       (* the answer is the empty string *)
| LlmParsed (v : json).          (* JSON.parse returned v *)

(** The object the loop over [requiredFields] works on, when there is one. *)
Definition parsed_object (llm : llm_outcome) : option object :=
  match llm with LlmParsed v => own_properties v | _ => None end.

Definition requiredFields : list jsstring :=
  [lit "accountHolderName"; lit "accountHolderAddress"; lit "statementDate";
   lit "startingBalance"; lit "endingBalance"; lit "transactions"].

(** The body of the loop over [requiredFields]. *)
Definition default_field (parsedJson : object) (field : jsstring) : object :=
  if negb (has_property parsedJson field) then
    if str_eqb field (lit "transactions")
    then set_property parsedJson (lit "transactions") (JsonArray [])
    else set_property parsedJson field JsonNull
  else parsedJson.

(** [if (parsedJson.transactions && !Array.isArray(parsedJson.transactions))] *)
Definition default_transactions (parsedJson : object) : object :=
  if truthy (get_property parsedJson (lit "transactions"))
     && negb (isArray (get_property parsedJson (lit "transactions")))
  then set_property parsedJson (lit "transactions") (JsonArray [])
  else parsedJson.

Definition fill_defaults (parsedJson : object) : object :=
  default_transactions (fold_left default_field requiredFields parsedJson).

(** The value a missing required field is given. *)
Definition default_value (field : jsstring) : json :=
  if str_eqb field (lit "transactions") then JsonArray [] else JsonNull.

(** [transactions] is an array or converts to false. *)
Definition array_or_falsy (v : option json) : bool :=
  isArray v || negb (truthy v).

(** A property that is [null] or not there. *)
Definition null_or_missing (v : option json) : bool :=
  match v with None | Some JsonNull => true | _ => false end.

(** The guard of [performReconciliation] on the object. *)
Definition insufficient_data (data : object) : bool :=
  strict_null (get_property data (lit "startingBalance"))
  || strict_null (get_property data (lit "endingBalance"))
  || negb (truthy (get_property data (lit "transactions"))).

(** The object returned when nothing could be extracted. *)
Definition empty_extraction (name : json) : object :=
  [(lit "accountHolderName", name);
   (lit "accountHolderAddress", JsonNull);
   (lit "statementDate", JsonNull);
   (lit "transactions", JsonArray []);
   (lit "startingBalance", JsonNull);
   (lit "endingBalance", JsonNull)].

(** [a || b] on strings. *)
Definition or_default (a b : jsstring) : jsstring :=
  match a with [] => b | _ => a end.

Definition llm_failed (message : jsstring) : json :=
  JsonString (lit "Error: Gemini LLM Failed (Details: "
              ++ or_default message (lit "Unknown error") ++ lit ")").

(** [!GOOGLE_API_KEY || GOOGLE_API_KEY === "YOUR_API_KEY_NOT_SET"] *)
Definition key_missing (apiKey : option jsstring) : bool :=
  match apiKey with
  | None | Some [] => true
  | Some k => str_eqb k (lit "YOUR_API_KEY_NOT_SET")
  end.

(** [!text || text.trim() === ""] *)
Definition blank (text : jsstring) : bool :=
  match text with [] => true | _ => str_eqb (trim text) [] end.

Section Engine.

(** The message of the [TypeError] the engine throws at each place. *)
Variable engine_message : type_error -> jsstring.

Definition getDetailsFromLlm (apiKey : option jsstring) (text : jsstring)
    (llm : llm_outcome) : object :=
  if key_missing apiKey then
    empty_extraction (JsonString (lit "Error: Gemini API Key Missing or Invalid"))
  else if blank text then empty_extraction JsonNull
  else
    match llm with
    | LlmThrew message => empty_extraction (llm_failed message)
    | LlmEmpty =>
        empty_extraction (llm_failed (lit "Gemini LLM returned an empty response."))
    | LlmParsed v =>
        match own_properties v with
        | None => empty_extraction (llm_failed (engine_message InOnPrimitive))
        | Some parsedJson => fill_defaults parsedJson
        end
    end.

(** ** POST *)

Record File : Type := { file_name : jsstring; file_type : jsstring }.

(** What [request.formData()] gives: it throws, or holds the field
    [pdfFile] or not. *)
Inductive form_outcome : Type :=
| FormThrew (message : jsstring)
| FormData (pdfFile : option File).

(** What reading and parsing the file give: [arrayBuffer()] throws,
    [pdf-parse] throws, or the text of the PDF. *)
Inductive pdf_outcome : Type :=
| BufferThrew (message : jsstring)
| PdfThrew
| PdfText (text : jsstring).

Inductive body : Type :=
| ErrorBody (error : jsstring) (details : option jsstring)
| ResultBody (extractedData : object) (reconciliation : ReconciliationResult)
             (message : jsstring).

Record response : Type := { status : nat; body_of : body }.

(** [NextResponse.json(body, { status })]: the body is sent as
    [JSON.stringify] writes it and is what [JSON.parse] reads back.  NaN
    and the infinities are written as [null] and [-0] as [0]; every
    other number, and every string, boolean and [null], is read back as
    it was. *)
Definition number_to_json (x : number) : option number :=
  match x with
  | S754_nan | S754_infinity _ => None
  | S754_zero _ => Some pos_zero
  | S754_finite _ _ _ => Some x
  end.

Fixpoint serialized (v : json) : json :=
  match v with
  | JsonNumber x =>
      match number_to_json x with Some y => JsonNumber y | None => JsonNull end
  | JsonArray l => JsonArray (map serialized l)
  | JsonObject o => JsonObject (map (fun '(k, w) => (k, serialized w)) o)
  | _ => v
  end.

Definition serialized_object (o : object) : object :=
  map (fun '(k, w) => (k, serialized w)) o.

Definition serialized_number (x : option number) : option number :=
  match x with Some y => number_to_json y | None => None end.

Definition serialized_result (r : ReconciliationResult) : ReconciliationResult :=
  {| calculatedEndingBalance := serialized_number (calculatedEndingBalance r);
     difference := serialized_number (difference r);
     matches := matches r |}.

Definition NextResponse_json (b : body) (code : nat) : response :=
  {| status := code;
     body_of :=
       match b with
       | ErrorBody error details => ErrorBody error details
       | ResultBody extractedData reconciliation message =>
           ResultBody (serialized_object extractedData)
                      (serialized_result reconciliation) message
       end |}.

(** The [catch] of the handler. *)
Definition server_error (message : jsstring) : response :=
  NextResponse_json
    (ErrorBody (lit "An unexpected server error occurred while processing the PDF.")
               (Some (or_default message (lit "Unknown error."))))
    500.

(** [name && name.startsWith("Error: Gemini LLM Failed") ? ... : ...] *)
Definition response_message (name : option json) : R jsstring :=
  if truthy name then
    match name with
    | Some (JsonString s) =>
        inr (if startsWith s (lit "Error: Gemini LLM Failed")
             then lit "PDF processed, but there was an issue with LLM data extraction."
             else lit "PDF processed and LLM extraction complete.")
    | _ => inl StartsWithNotFunction
    end
  else inr (lit "PDF processed and LLM extraction complete.").

(** [!extractedText || extractedText.trim().length < 50] *)
Definition too_short (extractedText : jsstring) : bool :=
  match extractedText with
  | [] => true
  | _ => Nat.ltb (List.length (trim extractedText)) 50
  end.

Definition parsing_issue (extractedText : jsstring) : response :=
  NextResponse_json
    (ResultBody
       [(lit "accountHolderName", JsonString (lit "Parsing Issue"));
        (lit "accountHolderAddress",
          JsonString (lit "Extracted text was too short or empty. The PDF might be scanned, password-protected, or have no selectable text."));
        (lit "statementDate", JsonString (lit "N/A"));
        (lit "transactions", JsonArray []);
        (lit "startingBalance", JsonNull);
        (lit "endingBalance", JsonNull);
        (lit "rawPdfText", JsonString (snippet 500 extractedText))]
       {| calculatedEndingBalance := None; difference := None; matches := false |}
       (lit "PDF parsed, but content was minimal or empty. Please ensure it's a text-based PDF."))
    200.

Definition POST (form : form_outcome) (pdf : pdf_outcome)
    (apiKey : option jsstring) (llm : llm_outcome) : response :=
  match form with
  | FormThrew message => server_error message
  | FormData None =>
      NextResponse_json (ErrorBody (lit "No file uploaded.") None) 400
  | FormData (Some file) =>
      if negb (str_eqb (file_type file) (lit "application/pdf")) then
        NextResponse_json
          (ErrorBody (lit "Invalid file type. Please upload a PDF.") None) 400
      else
        match pdf with
        | BufferThrew message => server_error message
        | PdfThrew =>
            server_error (lit "Error processing PDF file content with pdf-parse.")
        | PdfText extractedText =>
            if too_short extractedText then parsing_issue extractedText
            else
              let llmExtractedData := getDetailsFromLlm apiKey extractedText llm in
              match performReconciliationJson llmExtractedData with
              | inl e => server_error (engine_message e)
              | inr reconciliationResult =>
                  match response_message
                          (get_property llmExtractedData (lit "accountHolderName")) with
                  | inl e => server_error (engine_message e)
                  | inr message =>
                      NextResponse_json
                        (ResultBody
                           (set_property llmExtractedData (lit "rawPdfText")
                              (JsonString (snippet 1000 extractedText)))
                           reconciliationResult message)
                        200
                  end
              end
        end
  end.

End Engine.

(** ** The page

    The state of [HomePage] and its two handlers.  [handleSubmit] runs in
    two steps, before and after the request; other events can take place
    between them.  The two hover flags are left out. *)

Module Page.

(** The body of a response, as the page reads it. *)
Record ApiResponse : Type := {
  response_error : option jsstring;   (* result.error *)
  response_data : object              (* the other properties *)
}.

Record State : Type := {
  file : option File;
  isLoading : bool;
  apiResponse : option ApiResponse;
  error : option jsstring;
  fileName : jsstring
}.

Definition initial : State :=
  {| file := None; isLoading := false; apiResponse := None; error := None;
     fileName := [] |}.

(** [event.target.files] is [null] or a list of files. *)
Definition handleFileChange (files : option (list File)) (st : State) : State :=
  match files with
  | Some (selectedFile :: _) =>
      if str_eqb (file_type selectedFile) (lit "application/pdf") then
        {| file := Some selectedFile; isLoading := isLoading st;
           apiResponse := None; error := None;
           fileName := file_name selectedFile |}
      else
        {| file := None; isLoading := isLoading st; apiResponse := None;
           error := Some (lit "Please select a PDF file."); fileName := [] |}
  | _ =>
      {| file := None; isLoading := isLoading st; apiResponse := None;
         error := error st; fileName := [] |}
  end.

(** What [fetch] and [response.json()] give. *)
Inductive fetch_outcome : Type :=
| FetchThrew (message : jsstring)   (* fetch or response.json() threw *)
| Fetched (ok : bool) (status : nat) (statusText : jsstring) (result : ApiResponse).

(** The first part of [handleSubmit], up to the request it sends. *)
Definition submit_start (st : State) : State * option File :=
  match file st with
  | None =>
      ({| file := file st; isLoading := isLoading st;
          apiResponse := apiResponse st;
          error := Some (lit "Please select a PDF file to upload.");
          fileName := fileName st |}, None)
  | Some f =>
      ({| file := file st; isLoading := true; apiResponse := None;
          error := None; fileName := fileName st |}, Some f)
  end.

(** [result.error || `API Error: ${response.statusText} (Status: ${response.status})`] *)
Definition api_error (statusText : jsstring) (status : nat) (result : ApiResponse)
  : jsstring :=
  match response_error result with
  | Some (c :: e) => c :: e
  | _ => lit "API Error: " ++ statusText ++ lit " (Status: " ++ decimal status ++ lit ")"
  end.

(** The second part: the [try] after the request, its [catch] and [finally]. *)
Definition submit_finish (outcome : fetch_outcome) (st : State) : State :=
  match outcome with
  | Fetched true _ _ result =>
      {| file := file st; isLoading := false; apiResponse := Some result;
         error := error st; fileName := fileName st |}
  | Fetched false status statusText result =>
      {| file := file st; isLoading := false; apiResponse := None;
         error := Some (or_default (api_error statusText status result)
                          (lit "An unexpected error occurred."));
         fileName := fileName st |}
  | FetchThrew message =>
      {| file := file st; isLoading := false; apiResponse := None;
         error := Some (or_default message (lit "An unexpected error occurred."));
         fileName := fileName st |}
  end.

(** [handleSubmit] with nothing in between. *)
Definition handleSubmit (outcome : fetch_outcome) (st : State) : State :=
  match submit_start st with
  | (st', None) => st'
  | (st', Some _) => submit_finish outcome st'
  end.

(** [disabled={isLoading || !file}] of the submit button. *)
Definition submit_disabled (st : State) : bool :=
  isLoading st || match file st with None => true | Some _ => false end.

(** The events of the page and the state they lead to. *)
Inductive event : Type :=
| FileChange (files : option (list File))
| SubmitStart
| SubmitFinish (outcome : fetch_outcome).

Definition step (st : State) (ev : event) : State :=
  match ev with
  | FileChange files => handleFileChange files st
  | SubmitStart => fst (submit_start st)
  | SubmitFinish outcome => submit_finish outcome st
  end.

Definition run (events : list event) : State := fold_left step events initial.

(** The page used with nothing happening while a request is pending: a
    submission runs from its start to its [finally]. *)
Inductive action : Type :=
| Select (files : option (list File))
| Submit (outcome : fetch_outcome).

Definition perform (st : State) (a : action) : State :=
  match a with
  | Select files => handleFileChange files st
  | Submit outcome => handleSubmit outcome st
  end.

Definition run_atomic (actions : list action) : State :=
  fold_left perform actions initial.

End Page.

(** The file the page holds is a PDF, and [fileName] is its name, or
    empty without a file. *)
Definition file_invariant (st : Page.State) : Prop :=
  match Page.file st with
  | Some f =>
      file_type f = lit "application/pdf" /\ Page.fileName st = file_name f
  | None => Page.fileName st = []
  end.

(** At rest the page is not loading, and holds an answer only with a
    file and without an error. *)
Definition settled (st : Page.State) : Prop :=
  Page.isLoading st = false
  /\ match Page.apiResponse st with
     | Some _ => Page.error st = None /\ exists f, Page.file st = Some f
     | None => True
     end.

(** * Running the reconciliation *)

Lemma bind_ret_l {A B} (a : A) (k : A -> M B) : bind (ret a) k = k a.
Proof. unfold bind, ret. destruct (k a); reflexivity. Qed.

Lemma bind_console {B} (ev : console_event) (k : unit -> M B) :
  bind (console ev) k = (fst (k tt), ev :: snd (k tt)).
Proof. unfold bind, console. destruct (k tt); reflexivity. Qed.

Lemma toFixed_2 (x : number) : toFixed x 2 = ret (toFixed2 x).
Proof.
  unfold toFixed, toFixed2. cbn [Z.ltb Z.compare orb].
  destruct x as [s | s | | s m e]; try reflexivity.
  destruct (at_least_1e21 m e); reflexivity.
Qed.

(** One step of a run: a console write, a returned value or a [toFixed]. *)
Ltac run_step :=
  first [rewrite bind_console | rewrite bind_ret_l | rewrite toFixed_2];
  cbv beta.

Lemma run_insufficient (data : ExtractedData) :
  startingBalance data = None \/ endingBalance data = None
  \/ transactions data = None ->
  performReconciliation data
  = (inr insufficient, [LogPerforming; WarnCannotReconcile]).
Proof.
  intros H. unfold performReconciliation.
  destruct (startingBalance data) as [s |], (endingBalance data) as [e |],
    (transactions data) as [l |]; try reflexivity.
  destruct H as [H | [H | H]]; discriminate H.
Qed.

(** With both balances and the transaction list present the run goes
    through the filter, the sum and the three roundings. *)
Section Present.

Variables (data : ExtractedData) (s e : number) (l : list Transaction).
Hypothesis Hs : startingBalance data = Some s.
Hypothesis He : endingBalance data = Some e.
Hypothesis Hl : transactions data = Some l.

Lemma run_reconciled :
  performReconciliation data
  = (inr (reconciled s e l),
     LogPerforming :: excluded_warning l ++ [details s e l]).
Proof.
  unfold performReconciliation.
  rewrite Hs, He, Hl. cbn [is_null logical_not orb deref to_number].
  do 2 run_step. cbv zeta. unfold excluded_warning.
  destruct (negb (Nat.eqb (List.length (filter valid_amount l)) (List.length l)));
    cbv iota; repeat run_step; reflexivity.
Qed.

Lemma returned_reconciled :
  returned (performReconciliation data) = Some (reconciled s e l).
Proof. rewrite run_reconciled. reflexivity. Qed.

End Present.

Lemma returned_insufficient data :
  startingBalance data = None \/ endingBalance data = None
  \/ transactions data = None ->
  returned (performReconciliation data) = Some insufficient.
Proof. intros H. rewrite (run_insufficient data H). reflexivity. Qed.

(** Every run returns one of the two results. *)
Lemma returned_cases data :
  returned (performReconciliation data) = Some insufficient
  \/ exists s e l, startingBalance data = Some s /\ endingBalance data = Some e
                   /\ transactions data = Some l
                   /\ returned (performReconciliation data) = Some (reconciled s e l).
Proof.
  destruct (startingBalance data) as [s |] eqn:Hs;
    [| left; apply returned_insufficient; auto].
  destruct (endingBalance data) as [e |] eqn:He;
    [| left; apply returned_insufficient; auto].
  destruct (transactions data) as [l |] eqn:Hl;
    [| left; apply returned_insufficient; auto].
  right. exists s, e, l. repeat split. apply returned_reconciled; assumption.
Qed.

Lemma returned_same_sum data l l' :
  transactions data = Some l ->
  sumOfTransactions l = sumOfTransactions l' ->
  returned (performReconciliation data)
  = returned (performReconciliation (with_transactions data l')).
Proof.
  intros Hl Hsum.
  destruct (startingBalance data) as [s |] eqn:Hs;
    [| rewrite !returned_insufficient; auto].
  destruct (endingBalance data) as [e |] eqn:He;
    [| rewrite !returned_insufficient; auto].
  rewrite (returned_reconciled data s e l Hs He Hl).
  rewrite (returned_reconciled (with_transactions data l') s e l' Hs He eq_refl).
  unfold reconciled. rewrite Hsum. reflexivity.
Qed.

(** * Rounding to binary64

    Facts about the rounding functions of the binary64 specification,
    proved on integers: a rounded result is a canonical binary64 value
    whose exponent is fixed by the magnitude of the rounded quantity. *)

Module Rounding.

Lemma fexp64_eq k : fexp64 k = Z.max (k - 53) (-1074).
Proof. reflexivity. Qed.

Lemma digits2_pos_size p : digits2_pos p = Pos.size p.
Proof. induction p; simpl; congruence. Qed.

Lemma Zdigits2_log2 m : 0 < m -> Zdigits2 m = Z.succ (Z.log2 m).
Proof.
  destruct m as [| p | p]; try easy. intros _.
  destruct p; simpl; rewrite ?digits2_pos_size, ?Pos2Z.inj_succ; reflexivity.
Qed.

Lemma Zdigits2_bounds m :
  0 < m -> 2 ^ (Zdigits2 m - 1) <= m < 2 ^ Zdigits2 m.
Proof.
  intros Hm. rewrite (Zdigits2_log2 m Hm).
  replace (Z.succ (Z.log2 m) - 1) with (Z.log2 m) by lia.
  apply Z.log2_spec, Hm.
Qed.

Lemma Zdigits2_pos m : 0 < m -> 0 < Zdigits2 m.
Proof.
  intros Hm. rewrite (Zdigits2_log2 m Hm).
  pose proof (Z.log2_nonneg m). lia.
Qed.

Lemma Zdigits2_unique m d :
  2 ^ (d - 1) <= m < 2 ^ d -> 0 < d -> Zdigits2 m = d.
Proof.
  intros H Hd.
  assert (Hm : 0 < m).
  { assert (0 < 2 ^ (d - 1)) by (apply Z.pow_pos_nonneg; lia). lia. }
  rewrite (Zdigits2_log2 m Hm).
  rewrite (Z.log2_unique m (d - 1)); try lia.
  replace (Z.succ (d - 1)) with d by lia. exact H.
Qed.

(** A lower (upper) bound by a power of two bounds the digit count. *)
Lemma Zdigits2_ge m k : 0 <= k -> 2 ^ k <= m -> k + 1 <= Zdigits2 m.
Proof.
  intros Hk H.
  assert (Hm : 0 < m).
  { assert (0 < 2 ^ k) by (apply Z.pow_pos_nonneg; lia). lia. }
  destruct (Zdigits2_bounds m Hm) as [_ Hu].
  destruct (Z_lt_le_dec (Zdigits2 m) (k + 1)) as [Hlt | Hge]; [| exact Hge].
  exfalso.
  assert (2 ^ Zdigits2 m <= 2 ^ k) by (apply Z.pow_le_mono_r; lia). lia.
Qed.

Lemma Zdigits2_le m k : 0 < m -> 0 <= k -> m < 2 ^ k -> Zdigits2 m <= k.
Proof.
  intros Hm Hk H.
  destruct (Zdigits2_bounds m Hm) as [Hl _].
  destruct (Z_lt_le_dec k (Zdigits2 m)) as [Hlt | Hge]; [| exact Hge].
  exfalso.
  assert (2 ^ k <= 2 ^ (Zdigits2 m - 1)) by (apply Z.pow_le_mono_r; lia). lia.
Qed.

(** ** Right shifts *)

Lemma shr_1_m mrs : 0 <= shr_m mrs -> shr_m (shr_1 mrs) = shr_m mrs / 2.
Proof.
  destruct mrs as [m r s]. cbn [shr_m]. intros Hm.
  destruct m as [| p | p]; [reflexivity | | lia].
  rewrite <- Z.div2_div. destruct p; reflexivity.
Qed.

Lemma iter_shr_1_m p : forall mrs,
  0 <= shr_m mrs ->
  shr_m (iter_pos shr_1 p mrs) = shr_m mrs / 2 ^ Zpos p.
Proof.
  assert (Hpow : forall q, 0 < 2 ^ Zpos q) by (intros; apply Z.pow_pos_nonneg; lia).
  induction p as [p IH | p IH |]; intros mrs Hm; cbn [iter_pos].
  - assert (H1 : 0 <= shr_m (shr_1 mrs)).
    { rewrite shr_1_m by exact Hm. apply Z.div_pos; lia. }
    assert (H2 : 0 <= shr_m (iter_pos shr_1 p (shr_1 mrs))).
    { rewrite IH by exact H1. apply Z.div_pos; [exact H1 | apply Hpow]. }
    rewrite IH by exact H2. rewrite IH by exact H1. rewrite shr_1_m by exact Hm.
    rewrite !Z.div_div by (try apply Hpow; lia).
    f_equal. rewrite Pos2Z.inj_xI, <- Z.pow_add_r, <- Z.pow_succ_r by lia.
    f_equal. lia.
  - assert (H2 : 0 <= shr_m (iter_pos shr_1 p mrs)).
    { rewrite IH by exact Hm. apply Z.div_pos; [exact Hm | apply Hpow]. }
    rewrite IH by exact H2. rewrite IH by exact Hm.
    rewrite Z.div_div by (try apply Hpow; pose proof (Hpow p); lia).
    f_equal. rewrite Pos2Z.inj_xO, <- Z.pow_add_r by lia.
    f_equal. lia.
  - rewrite shr_1_m by exact Hm. reflexivity.
Qed.

Lemma shr_record_of_loc_m m l : shr_m (shr_record_of_loc m l) = m.
Proof. destruct l as [| []]; reflexivity. Qed.

(** [shr_fexp] divides the mantissa by the power of two that brings the
    exponent up to the canonical one. *)
Lemma shr_fexp_spec m e l :
  0 <= m ->
  let f := fexp64 (Zdigits2 m + e) in
  shr_m (fst (shr_fexp prec emax m e l)) = m / 2 ^ Z.max 0 (f - e)
  /\ snd (shr_fexp prec emax m e l) = Z.max e f.
Proof.
  intros Hm f. unfold shr_fexp, shr. fold (fexp64 (Zdigits2 m + e)). fold f.
  destruct (f - e) as [| p | p] eqn:Hfe; cbn [fst snd].
  - rewrite shr_record_of_loc_m. cbn [Z.max Z.compare].
    rewrite Z.pow_0_r, Z.div_1_r. split; [reflexivity | lia].
  - rewrite iter_shr_1_m by (rewrite shr_record_of_loc_m; exact Hm).
    rewrite shr_record_of_loc_m.
    replace (Z.max 0 (Zpos p)) with (Zpos p) by lia. split; [reflexivity | lia].
  - rewrite shr_record_of_loc_m.
    replace (Z.max 0 (Zneg p)) with 0 by lia.
    rewrite Z.pow_0_r, Z.div_1_r. split; [reflexivity | lia].
Qed.

Lemma round_nearest_even_cases m l :
  round_nearest_even m l = m \/ round_nearest_even m l = m + 1.
Proof.
  destruct l as [| []]; cbn [round_nearest_even]; auto.
  destruct (Z.even m); auto.
Qed.

(** ** Division by a power of two *)

Lemma pow2_pos k : 0 <= k -> 0 < 2 ^ k.
Proof. intros; apply Z.pow_pos_nonneg; lia. Qed.

Lemma div_pow2_lt m n k :
  0 <= n -> 0 <= k -> m < 2 ^ (k + n) -> m / 2 ^ n < 2 ^ k.
Proof.
  intros Hn Hk H. apply Z.div_lt_upper_bound; [apply pow2_pos, Hn |].
  rewrite <- Z.pow_add_r by lia. replace (n + k) with (k + n) by lia. exact H.
Qed.

Lemma div_pow2_ge m n k :
  0 <= n -> 0 <= k -> 2 ^ (k + n) <= m -> 2 ^ k <= m / 2 ^ n.
Proof.
  intros Hn Hk H. apply Z.div_le_lower_bound; [apply pow2_pos, Hn |].
  rewrite <- Z.pow_add_r by lia. replace (n + k) with (k + n) by lia. exact H.
Qed.

(** ** The shape of a rounded result

    For a positive mantissa whose exponent is not above the canonical
    one, [binary_round_aux] returns a canonical value of the same sign;
    its exponent is the canonical exponent [f] of the input or [f + 1]. *)
Lemma binary_round_aux_cases sx mx ex lx :
  0 < mx -> ex <= fexp64 (Zdigits2 mx + ex) ->
  let f := fexp64 (Zdigits2 mx + ex) in
  let r := binary_round_aux prec emax sx mx ex lx in
  (r = S754_zero sx /\ f = -1074)
  \/ (r = S754_infinity sx /\ 971 <= f)
  \/ exists m e, r = S754_finite sx m e /\ bounded prec emax m e = true
                 /\ (e = f \/ e = f + 1).
Proof.
  intros Hmx Hex f r. subst r. unfold binary_round_aux.
  pose proof (Zdigits2_bounds mx Hmx) as [Hlo Hhi].
  pose proof (Zdigits2_pos mx Hmx) as Hd.
  destruct (shr_fexp_spec mx ex lx) as [Hm1 He1]; [lia |].
  fold f in Hm1, He1.
  destruct (shr_fexp prec emax mx ex lx) as [mrs1 e1]. cbn [fst snd] in Hm1, He1.
  set (m2 := round_nearest_even (shr_m mrs1) (loc_of_shr_record mrs1)).
  assert (Hm2 : m2 = shr_m mrs1 \/ m2 = shr_m mrs1 + 1)
    by apply round_nearest_even_cases.
  replace (Z.max 0 (f - ex)) with (f - ex) in Hm1 by lia.
  replace e1 with f by lia. clear He1.
  assert (Hf : f = Z.max (Zdigits2 mx + ex - 53) (-1074)) by reflexivity.
  assert (Hrange :
    (f = Zdigits2 mx + ex - 53 /\ 2 ^ 52 <= shr_m mrs1 < 2 ^ 53)
    \/ (f = -1074 /\ 0 <= shr_m mrs1 < 2 ^ 52)).
  { destruct (Z_le_gt_dec (-1074) (Zdigits2 mx + ex - 53)) as [Hn | Hs].
    - left. split; [lia |]. rewrite Hm1. split.
      + apply div_pow2_ge; try lia.
        replace (52 + (f - ex)) with (Zdigits2 mx - 1) by lia. exact Hlo.
      + apply div_pow2_lt; try lia.
        replace (53 + (f - ex)) with (Zdigits2 mx) by lia. exact Hhi.
    - right. split; [lia |]. rewrite Hm1. split.
      + apply Z.div_pos; [lia | apply pow2_pos; lia].
      + apply div_pow2_lt; try lia.
        apply Z.lt_le_trans with (1 := Hhi).
        apply Z.pow_le_mono_r; lia. }
  clear Hm1 Hlo Hhi.
  change (2 ^ 52) with 4503599627370496 in Hrange.
  change (2 ^ 53) with 9007199254740992 in Hrange.
  assert (Hm2nn : 0 <= m2) by lia.
  destruct (shr_fexp_spec m2 f loc_Exact Hm2nn) as [Hm3 He3].
  destruct (shr_fexp prec emax m2 f loc_Exact) as [mrs3 e3].
  cbn [fst snd] in Hm3, He3.
  assert (Hcanon : forall p e d, Zdigits2 (Zpos p) = d -> fexp64 (d + e) = e ->
            canonical_mantissa prec emax p e = true).
  { intros p e d Hp He. unfold canonical_mantissa.
    change (Zpos (digits2_pos p)) with (Zdigits2 (Zpos p)). rewrite Hp.
    fold (fexp64 (d + e)). rewrite He. apply Z.eqb_refl. }
  destruct (Z_lt_le_dec m2 9007199254740992) as [Hsmall | Hbig].
  - (* no carry into a further digit *)
    assert (Hf2 : fexp64 (Zdigits2 m2 + f) = f).
    { rewrite fexp64_eq.
      destruct (Z.eq_dec m2 0) as [-> | Hnz]; [cbn [Zdigits2]; lia |].
      destruct Hrange as [[Hfn Hr] | [Hfs Hr]].
      - rewrite (Zdigits2_unique m2 53); [lia | | lia].
        change (2 ^ (53 - 1)) with 4503599627370496.
        change (2 ^ 53) with 9007199254740992. lia.
      - assert (Zdigits2 m2 <= 53).
        { apply Zdigits2_le; lia. }
        lia. }
    rewrite Hf2 in Hm3, He3.
    replace (Z.max 0 (f - f)) with 0 in Hm3 by lia.
    rewrite Z.pow_0_r, Z.div_1_r in Hm3.
    replace e3 with f by lia. rewrite Hm3.
    destruct m2 as [| p | p]; [| | lia].
    + left. split; [reflexivity |]. destruct Hrange as [[_ Hr] | [Hfs _]]; lia.
    + change (emax - prec) with 971. destruct (f <=? 971) eqn:Hle.
      * right. right. exists p, f. split; [reflexivity |]. split; [| auto].
        unfold bounded. rewrite (Hcanon p f (Zdigits2 (Zpos p)) eq_refl Hf2).
        exact Hle.
      * right. left. split; [reflexivity |]. apply Z.leb_gt in Hle. lia.
  - (* the rounding carried: the mantissa is 2^53 *)
    assert (Hm2v : m2 = 9007199254740992) by lia.
    assert (Hfn : f = Zdigits2 mx + ex - 53) by lia.
    assert (Hf2 : fexp64 (Zdigits2 m2 + f) = f + 1).
    { rewrite Hm2v. cbn [Zdigits2 digits2_pos Pos.succ]. rewrite fexp64_eq. lia. }
    rewrite Hf2 in Hm3, He3.
    replace (Z.max 0 (f + 1 - f)) with 1 in Hm3 by lia.
    replace e3 with (f + 1) by lia. rewrite Hm3, Hm2v.
    change (9007199254740992 / 2 ^ 1) with (Zpos 4503599627370496).
    cbv iota beta. change (emax - prec) with 971.
    destruct (f + 1 <=? 971) eqn:Hle.
    + right. right. exists 4503599627370496%positive, (f + 1).
      split; [reflexivity |]. split; [| auto].
      unfold bounded.
      rewrite (Hcanon 4503599627370496%positive (f + 1) 53 eq_refl).
      * exact Hle.
      * rewrite fexp64_eq. lia.
    + right. left. split; [reflexivity |]. apply Z.leb_gt in Hle. lia.
Qed.

Lemma rounded_valid sx mx ex lx :
  0 < mx -> ex <= fexp64 (Zdigits2 mx + ex) ->
  valid (binary_round_aux prec emax sx mx ex lx) = true.
Proof.
  intros Hmx Hex.
  destruct (binary_round_aux_cases sx mx ex lx Hmx Hex)
    as [[-> _] | [[-> _] | (m & e & -> & Hb & _)]]; try reflexivity.
  exact Hb.
Qed.

(** ** Left alignment and [binary_normalize] *)

Lemma iter_xO_pow2 m d : Zpos (Pos.iter xO m d) = Zpos m * 2 ^ Zpos d.
Proof.
  induction d as [| d IH] using Pos.peano_ind.
  - cbn [Pos.iter]. rewrite Pos2Z.inj_xO. change (2 ^ 1) with 2. lia.
  - rewrite Pos.iter_succ, Pos2Z.inj_xO, IH, Pos2Z.inj_succ.
    rewrite Z.pow_succ_r by lia. lia.
Qed.

Lemma Zdigits2_shift m d :
  0 < m -> 0 <= d -> Zdigits2 (m * 2 ^ d) = Zdigits2 m + d.
Proof.
  intros Hm Hd. pose proof (Zdigits2_bounds m Hm) as [Hlo Hhi].
  pose proof (Zdigits2_pos m Hm) as Hp. pose proof (pow2_pos d Hd) as H2.
  apply Zdigits2_unique; [| lia].
  replace (Zdigits2 m + d - 1) with (Zdigits2 m - 1 + d) by lia.
  rewrite !Z.pow_add_r by lia. split.
  - apply Z.mul_le_mono_nonneg_r; lia.
  - apply Z.mul_lt_mono_pos_r; lia.
Qed.

Lemma binary_round_valid sx mx ex :
  valid (binary_round prec emax sx mx ex) = true.
Proof.
  unfold binary_round, shl_align.
  change (Zpos (digits2_pos mx)) with (Zdigits2 (Zpos mx)).
  fold (fexp64 (Zdigits2 (Zpos mx) + ex)).
  destruct (fexp64 (Zdigits2 (Zpos mx) + ex) - ex) as [| d | d] eqn:Hd.
  - apply rounded_valid; lia.
  - apply rounded_valid; lia.
  - apply rounded_valid; [lia |].
    rewrite iter_xO_pow2, Zdigits2_shift by lia.
    replace (Zdigits2 (Zpos mx) + Zpos d + fexp64 (Zdigits2 (Zpos mx) + ex))
      with (Zdigits2 (Zpos mx) + ex) by lia.
    lia.
Qed.

Lemma binary_normalize_valid z e :
  valid (binary_normalize prec emax z e false) = true.
Proof.
  destruct z; cbn [binary_normalize]; [reflexivity | |]; apply binary_round_valid.
Qed.

(** ** Arithmetic keeps numbers canonical *)

Lemma add_valid x y : valid x = true -> valid y = true -> valid (add x y) = true.
Proof.
  intros Hx Hy. unfold add.
  destruct x as [sx | sx | | sx mx ex], y as [sy | sy | | sy my ey];
    cbn [SFadd]; try reflexivity; try assumption;
    try (destruct sx, sy; reflexivity).
  apply binary_normalize_valid.
Qed.

Lemma sub_valid x y : valid x = true -> valid y = true -> valid (sub x y) = true.
Proof.
  intros Hx Hy. unfold sub.
  destruct x as [sx | sx | | sx mx ex], y as [sy | sy | | sy my ey];
    cbn [SFsub]; try reflexivity; try assumption;
    try (destruct sx, sy; reflexivity).
  apply binary_normalize_valid.
Qed.

(** ** Reading a decimal with two fractional digits

    [of_ratio s n 100] for [n > 0] is a canonical finite value of sign
    [s] whose exponent is at least [min (digits n - 60) 0]; it is never
    a zero, and an infinity only for astronomically large [n]. *)
Lemma of_ratio_100_cases s n :
  0 < n ->
  (of_ratio s n 100 = S754_infinity s /\ 1024 <= Zdigits2 n)
  \/ exists m e, of_ratio s n 100 = S754_finite s m e
                 /\ bounded prec emax m e = true
                 /\ Z.min (Zdigits2 n - 60) 0 <= e.
Proof.
  intros Hn. unfold of_ratio, SFdiv_core_binary.
  pose proof (Zdigits2_bounds n Hn) as [Hlo Hhi].
  pose proof (Zdigits2_pos n Hn) as Hdn.
  change (Zdigits2 100) with 7.
  fold (fexp64 (Zdigits2 n + 0 - (7 + 0))). rewrite fexp64_eq.
  set (e0 := Z.min (Z.max (Zdigits2 n + 0 - (7 + 0) - 53) (-1074)) (0 - 0)).
  assert (He0 : e0 = Z.min (Zdigits2 n - 60) 0) by lia.
  set (m' := match 0 - 0 - e0 with
             | 0 => n | Zpos _ => Z.shiftl n (0 - 0 - e0) | Zneg _ => 0 end).
  assert (Hm' : m' = n * 2 ^ (- e0)).
  { subst m'. destruct (0 - 0 - e0) as [| p | p] eqn:Hs.
    - replace (- e0) with 0 by lia. rewrite Z.pow_0_r. lia.
    - rewrite Z.shiftl_mul_pow2 by lia. f_equal. f_equal. lia.
    - lia. }
  clearbody m'.
  assert (Hq : Z.div_eucl m' 100 = (m' / 100, m' mod 100)).
  { unfold Z.div, Z.modulo. destruct (Z.div_eucl m' 100); reflexivity. }
  rewrite Hq. set (q := m' / 100).
  assert (Hqb : 0 < q /\ e0 <= fexp64 (Zdigits2 q + e0)
                /\ fexp64 (Zdigits2 q + e0) <= Zdigits2 n - 53).
  { rewrite fexp64_eq.
    destruct (Z_le_gt_dec (Zdigits2 n) 60) as [Hsm | Hlg].
    - assert (Hm'b : 2 ^ 59 <= m' < 2 ^ 60).
      { rewrite Hm'. replace (- e0) with (60 - Zdigits2 n) by lia.
        pose proof (pow2_pos (60 - Zdigits2 n)) as H2. split.
        - replace 59 with (Zdigits2 n - 1 + (60 - Zdigits2 n)) by lia.
          rewrite Z.pow_add_r by lia. apply Z.mul_le_mono_nonneg_r; lia.
        - replace 60 with (Zdigits2 n + (60 - Zdigits2 n)) at 2 by lia.
          rewrite Z.pow_add_r by lia. apply Z.mul_lt_mono_pos_r; lia. }
      change (2 ^ 59) with 576460752303423488 in Hm'b.
      change (2 ^ 60) with 1152921504606846976 in Hm'b.
      assert (Hqv : 5764607523034234 <= q <= 11529215046068469).
      { subst q. split.
        - apply Z.div_le_lower_bound; lia.
        - apply Z.lt_succ_r, Z.div_lt_upper_bound; lia. }
      assert (53 <= Zdigits2 q).
      { apply (Zdigits2_ge q 52); lia. }
      assert (Zdigits2 q <= 54).
      { apply Zdigits2_le; lia. }
      lia.
    - assert (Hm'b : 2 ^ 60 <= m' < 2 ^ Zdigits2 n).
      { rewrite Hm'. replace (- e0) with 0 by lia.
        rewrite Z.pow_0_r, Z.mul_1_r. split; [| exact Hhi].
        apply Z.le_trans with (2 ^ (Zdigits2 n - 1)); [| exact Hlo].
        apply Z.pow_le_mono_r; lia. }
      change (2 ^ 60) with 1152921504606846976 in Hm'b.
      assert (Hqv : 11529215046068469 <= q <= m').
      { subst q. split.
        - apply Z.div_le_lower_bound; lia.
        - apply Z.div_le_upper_bound; lia. }
      assert (54 <= Zdigits2 q).
      { apply (Zdigits2_ge q 53); lia. }
      assert (Zdigits2 q <= Zdigits2 n) by (apply Zdigits2_le; lia).
      lia. }
  destruct Hqb as (Hq0 & Hpre & Hup).
  destruct (binary_round_aux_cases s q e0 (new_location 100 (m' mod 100)) Hq0 Hpre)
    as [[_ Hz] | [[-> Hi] | (m & e & -> & Hb & He)]].
  - lia.
  - left. split; [reflexivity | lia].
  - right. exists m, e. split; [reflexivity |]. split; [exact Hb | lia].
Qed.

(** ** [toFixed(2)] followed by [parseFloat] *)

Lemma tolerance_value :
  tolerance = S754_finite false 8646911284551352 (-59).
Proof. vm_compute. reflexivity. Qed.

Lemma one_cent_value s :
  of_ratio s 1 100 = S754_finite s 5764607523034235 (-59).
Proof. destruct s; vm_compute; reflexivity. Qed.

Lemma of_ratio_0 s : of_ratio s 0 100 = S754_zero s.
Proof. destruct s; vm_compute; reflexivity. Qed.

(** [toFixed] rounds to the nearest multiple of [10^-f], upwards on a tie:
    for [x = m * 2^(-p)], [n - 1/2 <= 10^f * x < n + 1/2]. *)
Lemma nearest_scaled_spec f m p :
  0 <= f ->
  let n := nearest_scaled f m (Zneg p) in
  (2 * n - 1) * 2 ^ Zpos p <= 2 * 10 ^ f * Zpos m < (2 * n + 1) * 2 ^ Zpos p.
Proof.
  intros Hf n. subst n. unfold nearest_scaled.
  pose proof (pow2_pos (Zpos p) ltac:(lia)) as H2.
  replace (Zpos p + 1) with (Z.succ (Zpos p)) by lia.
  rewrite Z.pow_succ_r by lia.
  set (a := 2 * 10 ^ f * Zpos m + 2 ^ Zpos p).
  set (b := 2 * 2 ^ Zpos p).
  pose proof (Z.div_mod a b ltac:(lia)) as Hdm.
  pose proof (Z.mod_pos_bound a b ltac:(lia)) as Hmod.
  subst a b. nia.
Qed.

Lemma nearest_scaled_nonneg m e : 0 <= nearest_scaled 2 m e.
Proof.
  unfold nearest_scaled. destruct e as [| p | p].
  - lia.
  - pose proof (pow2_pos (Zpos p)). lia.
  - pose proof (pow2_pos (Zpos p)). pose proof (pow2_pos (Zpos p + 1)).
    apply Z.div_pos; lia.
Qed.

(** Below [10^21] the scaled integer has at most 77 binary digits. *)
Lemma nearest_scaled_small m e :
  at_least_1e21 m e = false ->
  nearest_scaled 2 m e < 2 ^ 77.
Proof.
  unfold at_least_1e21, nearest_scaled. intros H.
  change (10 ^ 21) with 1000000000000000000000 in H.
  change (10 ^ 2) with 100. change (2 ^ 77) with 151115727451828646838272.
  destruct e as [| p | p]; apply Z.leb_gt in H.
  - lia.
  - pose proof (pow2_pos (Zpos p)). nia.
  - pose proof (pow2_pos (Zpos p) ltac:(lia)) as H2.
    replace (Zpos p + 1) with (Z.succ (Zpos p)) by lia.
    rewrite Z.pow_succ_r by lia.
    apply Z.div_lt_upper_bound; lia.
Qed.

Lemma parseFloat_fixed s n : parseFloat (StrFixed s n 2) = of_ratio s n 100.
Proof. reflexivity. Qed.

(** Below [10^21], [round2] is the binary64 value nearest to [n / 100]
    for the number of cents [n] nearest to the argument. *)
Lemma round2_nearest s m p :
  at_least_1e21 m (Zneg p) = false ->
  exists n,
    round2 (S754_finite s m (Zneg p)) = of_ratio s n 100
    /\ (2 * n - 1) * 2 ^ Zpos p <= 200 * Zpos m < (2 * n + 1) * 2 ^ Zpos p.
Proof.
  intros Hl. exists (nearest_scaled 2 m (Zneg p)). split.
  - unfold round2, toFixed2. rewrite Hl. apply parseFloat_fixed.
  - apply (nearest_scaled_spec 2 m p). lia.
Qed.

(** A value of at least [10^21] in canonical form has a positive exponent. *)
Lemma large_exponent m e :
  bounded prec emax m e = true -> at_least_1e21 m e = true -> 0 <= e.
Proof.
  unfold bounded, canonical_mantissa, at_least_1e21. intros Hb Hl.
  apply andb_prop in Hb. destruct Hb as [Hc _]. apply Z.eqb_eq in Hc.
  fold (fexp64 (Zpos (digits2_pos m) + e)) in Hc. rewrite fexp64_eq in Hc.
  destruct e as [| p | p]; [lia | lia |]. exfalso.
  apply Z.leb_le in Hl. pose proof (pow2_pos (Zpos p) ltac:(lia)) as H2.
  assert (Hm : 2 ^ 69 <= Zpos m).
  { change (10 ^ 21) with 1000000000000000000000 in Hl.
    change (2 ^ 69) with 590295810358705651712. nia. }
  pose proof (Zdigits2_ge (Zpos m) 69 ltac:(lia) Hm) as Hd.
  change (Zdigits2 (Zpos m)) with (Zpos (digits2_pos m)) in Hd. lia.
Qed.

Lemma round2_valid x : valid x = true -> valid (round2 x) = true.
Proof.
  intros Hx. unfold round2, toFixed2.
  destruct x as [s | s | | s m e]; try reflexivity.
  destruct (at_least_1e21 m e); [exact Hx |].
  rewrite parseFloat_fixed.
  pose proof (nearest_scaled_nonneg m e) as Hn.
  destruct (Z.eq_dec (nearest_scaled 2 m e) 0) as [-> | Hnz].
  - rewrite of_ratio_0. reflexivity.
  - destruct (of_ratio_100_cases s (nearest_scaled 2 m e))
      as [[-> _] | (m' & e' & -> & Hb & _)]; [lia | reflexivity | exact Hb].
Qed.

Lemma round2_finite x : is_finite x = true -> is_finite (round2 x) = true.
Proof.
  intros Hx. unfold round2, toFixed2.
  destruct x as [s | s | | s m e]; try discriminate Hx; try reflexivity.
  destruct (at_least_1e21 m e) eqn:Hl; [reflexivity |].
  rewrite parseFloat_fixed.
  pose proof (nearest_scaled_nonneg m e) as Hn.
  pose proof (nearest_scaled_small m e Hl) as Hs.
  destruct (Z.eq_dec (nearest_scaled 2 m e) 0) as [-> | Hnz].
  - rewrite of_ratio_0. reflexivity.
  - destruct (of_ratio_100_cases s (nearest_scaled 2 m e))
      as [[_ Hd] | (m' & e' & -> & _ & _)]; [lia | | reflexivity].
    exfalso.
    assert (Zdigits2 (nearest_scaled 2 m e) <= 77) by (apply Zdigits2_le; lia).
    lia.
Qed.

Lemma round2_cases x : valid x = true -> round2_value (round2 x).
Proof.
  intros Hx. unfold round2, toFixed2.
  destruct x as [s | s | | s m e].
  - rewrite parseFloat_fixed, of_ratio_0. constructor.
  - constructor.
  - constructor.
  - destruct (at_least_1e21 m e) eqn:Hl.
    + cbn [parseFloat]. constructor.
      pose proof (large_exponent m e Hx Hl). lia.
    + rewrite parseFloat_fixed.
      pose proof (nearest_scaled_nonneg m e) as Hn.
      destruct (Z.eq_dec (nearest_scaled 2 m e) 0) as [-> | Hnz];
        [rewrite of_ratio_0; constructor |].
      destruct (Z.eq_dec (nearest_scaled 2 m e) 1) as [-> | Hn1];
        [constructor |].
      destruct (of_ratio_100_cases s (nearest_scaled 2 m e))
        as [[-> _] | (m' & e' & -> & _ & He)]; [lia | constructor |].
      constructor.
      assert (2 <= Zdigits2 (nearest_scaled 2 m e))
        by (apply (Zdigits2_ge _ 1); lia).
      lia.
Qed.

End Rounding.

(** * Properties of the tolerance test *)

Import Rounding.

Lemma cents_1 : cents 1 = S754_finite false 5764607523034235 (-59).
Proof. vm_compute. reflexivity. Qed.

Lemma cents_m1 : cents (-1) = S754_finite true 5764607523034235 (-59).
Proof. vm_compute. reflexivity. Qed.

Lemma tolerance_is_one_cent d :
  round2_value d -> within_tolerance d = at_most_one_cent d.
Proof.
  intros H. unfold within_tolerance, at_most_one_cent, lt, eq, Math_abs.
  rewrite tolerance_value, cents_1, cents_m1.
  destruct H as [| s | s | s | s m e He].
  - reflexivity.
  - destruct s; reflexivity.
  - destruct s; reflexivity.
  - rewrite one_cent_value. destruct s; reflexivity.
  - assert (Hc : (e ?= -59) = Gt) by (apply Z.compare_gt_iff; lia).
    unfold SFltb, SFeqb, pos_zero. cbn [SFabs SFcompare]. rewrite Hc.
    destruct s; reflexivity.
Qed.

(** No value [round2] returns is 0.0149 or 0.015. *)
Lemma round2_value_off_boundary d :
  round2_value d ->
  forall s, d <> of_ratio s 149 10000 /\ d <> of_ratio s 15 1000.
Proof.
  assert (H149 : forall s, of_ratio s 149 10000
                           = S754_finite s 8589265209321010 (-59))
    by (intros []; vm_compute; reflexivity).
  assert (H15 : forall s, of_ratio s 15 1000
                          = S754_finite s 8646911284551352 (-59))
    by (intros []; vm_compute; reflexivity).
  intros H s0. rewrite H149, H15.
  destruct H as [| s | s | s | s m e He]; rewrite ?one_cent_value;
    split; intros Heq; try discriminate Heq; injection Heq; intros; lia.
Qed.

(** * Properties of binary64 addition and subtraction *)



Lemma sub_diag x : is_finite x = true -> sub x x = pos_zero.
Proof.
  unfold sub. destruct x as [[] | | | s m e]; try discriminate; try reflexivity.
  intros _. cbn [SFsub]. rewrite Z.sub_diag. reflexivity.
Qed.

(** [x == y] on a finite [y] forces the same value up to the sign of zero. *)
Lemma eq_finite x y :
  eq x y = true -> is_finite y = true ->
  x = y \/ (exists sx sy, x = S754_zero sx /\ y = S754_zero sy).
Proof.
  unfold eq, SFeqb.
  destruct x as [sx | sx | | sx mx ex], y as [sy | sy | | sy my ey];
    cbn [SFcompare is_finite]; intros H Hf;
    try discriminate Hf; try discriminate H;
    try (destruct sx; discriminate H); try (destruct sy; discriminate H).
  - right. eauto.
  - left. destruct sx, sy; try discriminate H;
      destruct (Z.compare_spec ex ey) as [-> | |]; try discriminate H;
      destruct (Pos.compare_cont Eq mx my) eqn:Hc; try discriminate H;
      apply Pos.compare_eq in Hc; subst; reflexivity.
Qed.

Lemma round2_zero s : round2 (S754_zero s) = pos_zero.
Proof. reflexivity. Qed.

(** * Properties of the sum of the transactions *)

Lemma filter_valid_idem l :
  filter valid_amount (filter valid_amount l) = filter valid_amount l.
Proof.
  induction l as [| t l IH]; [reflexivity |]. cbn [filter].
  destruct (valid_amount t) eqn:Ht; [| exact IH].
  cbn [filter]. rewrite Ht, IH. reflexivity.
Qed.

Lemma sum_of_valid l :
  sumOfTransactions (filter valid_amount l) = sumOfTransactions l.
Proof. unfold sumOfTransactions. rewrite filter_valid_idem. reflexivity. Qed.

(** The filter of the code keeps the numbers other than NaN, and the
    fold adds them in the order of the list. *)
Lemma sum_numeric_amounts l : forall a : number,
  fold_left add_amount (filter valid_amount l) a
  = fold_left add (numeric_amounts l) a.
Proof.
  induction l as [| tx l IH]; intros a; [reflexivity |].
  cbn [filter numeric_amounts flat_map]. fold (numeric_amounts l).
  unfold valid_amount at 1.
  destruct (amount tx) as [| | b | x | str |] eqn:Hx;
    cbn [typeof_is_number number_value andb app]; try apply IH.
  destruct (isNaN x); cbn [negb app]; [apply IH |].
  cbn [fold_left]. unfold add_amount at 2. rewrite Hx. apply IH.
Qed.


Lemma valid_amount_iff tx :
  valid_amount tx = true <-> exists x, amount tx = JNumber x /\ isNaN x = false.
Proof.
  unfold valid_amount. destruct (amount tx) as [| | b | x | str |];
    cbn [typeof_is_number number_value andb]; split;
    try discriminate; try (intros (y & Hy & _); discriminate Hy).
  - intros H. exists x. split; [reflexivity |].
    destruct (isNaN x); [discriminate H | reflexivity].
  - intros (y & Hy & Hn). injection Hy as ->. rewrite Hn. reflexivity.
Qed.

Lemma sum_valid l :
  Forall wf_amount l -> valid (sumOfTransactions l) = true.
Proof.
  unfold sumOfTransactions. generalize pos_zero (eq_refl : valid pos_zero = true).
  induction l as [| t l IH]; intros acc Hacc Hwf; [exact Hacc |].
  inversion Hwf as [| ? ? Ht Hl]; subst. cbn [filter].
  destruct (valid_amount t); [| apply IH; assumption].
  cbn [fold_left]. apply IH; [| assumption].
  apply Rounding.add_valid; [exact Hacc |].
  unfold wf_amount in Ht. destruct (amount t); try reflexivity. exact Ht.
Qed.

(** ** Permutations

    Which transactions are summed, how many are excluded and the exact
    sum of the valid amounts do not depend on the order of the list. *)









(** Canonical representations are kept by every step of the run. *)
Create HintDb canonical.
#[local] Hint Resolve add_valid sub_valid round2_valid sum_valid : canonical.

(** The difference of a reconciliation of canonical numbers is one of the
    values [round2] returns. *)
Lemma difference_is_round2_value s e l :
  valid s = true -> valid e = true -> Forall wf_amount l ->
  round2_value (round2 (sub (round2 e) (round2 (add s (sumOfTransactions l))))).
Proof. intros Vs Ve Vl. apply round2_cases. auto 6 with canonical. Qed.

(** So it is never 0.0149 or 0.015, of either sign. *)
Remark difference_off_boundary data s e l r d :
  startingBalance data = Some s -> endingBalance data = Some e ->
  transactions data = Some l ->
  valid s = true -> valid e = true -> Forall wf_amount l ->
  returned (performReconciliation data) = Some r -> difference r = Some d ->
  forall sign, d <> of_ratio sign 149 10000 /\ d <> of_ratio sign 15 1000.
Proof.
  intros Hs He Hl Vs Ve Vl Hr Hd.
  rewrite (returned_reconciled data s e l Hs He Hl) in Hr. injection Hr as <-.
  cbn in Hd. injection Hd as <-.
  apply round2_value_off_boundary, difference_is_round2_value; assumption.
Qed.

(** * The value of a sum of decimal amounts

    Binary64 addition and the reading of a decimal are each within one
    unit in the last place of the exact result.  For amounts in cents of
    bounded magnitude the errors of a left-to-right sum stay far below
    half a cent, so rounding the sum to two decimals gives the decimal
    sum back. *)

Lemma bounded_exponent m e :
  bounded prec emax m e = true ->
  -1074 <= e <= 971 /\ e = fexp64 (Zdigits2 (Zpos m) + e).
Proof.
  unfold bounded, canonical_mantissa. intros H.
  apply andb_prop in H. destruct H as [Hc He].
  apply Z.eqb_eq in Hc. apply Z.leb_le in He.
  change (Zpos (digits2_pos m)) with (Zdigits2 (Zpos m)) in Hc.
  fold (fexp64 (Zdigits2 (Zpos m) + e)) in Hc.
  change (emax - prec) with 971 in He.
  pose proof (fexp64_eq (Zdigits2 (Zpos m) + e)) as Hf.
  split; [lia | lia].
Qed.

Lemma cond_Zopp_0 s : cond_Zopp s 0 = 0.
Proof. destruct s; reflexivity. Qed.

Lemma binary_round_aux_value sx mx ex lx :
  0 < mx -> ex <= fexp64 (Zdigits2 mx + ex) -> -1074 <= ex ->
  fexp64 (Zdigits2 mx + ex) < 971 ->
  let f := fexp64 (Zdigits2 mx + ex) in
  let r := binary_round_aux prec emax sx mx ex lx in
  finite_valid r
  /\ exists m2, scaled r = cond_Zopp sx (m2 * 2 ^ (f + 1074))
                /\ mx / 2 ^ (f - ex) <= m2 <= mx / 2 ^ (f - ex) + 1.
Proof.
  intros Hmx Hex Hlow Hhigh f r.
  assert (Hv : valid r = true) by (apply rounded_valid; assumption).
  subst r. unfold finite_valid. rewrite Hv. clear Hv.
  unfold binary_round_aux.
  pose proof (Zdigits2_bounds mx Hmx) as [Hlo Hhi].
  pose proof (Zdigits2_pos mx Hmx) as Hd.
  destruct (shr_fexp_spec mx ex lx) as [Hm1 He1]; [lia |].
  fold f in Hm1, He1.
  destruct (shr_fexp prec emax mx ex lx) as [mrs1 e1]. cbn [fst snd] in Hm1, He1.
  set (m2 := round_nearest_even (shr_m mrs1) (loc_of_shr_record mrs1)).
  assert (Hm2 : m2 = shr_m mrs1 \/ m2 = shr_m mrs1 + 1)
    by apply round_nearest_even_cases.
  replace (Z.max 0 (f - ex)) with (f - ex) in Hm1 by lia.
  replace e1 with f by lia. clear He1.
  assert (Hf : f = Z.max (Zdigits2 mx + ex - 53) (-1074)) by reflexivity.
  assert (Hrange :
    (f = Zdigits2 mx + ex - 53 /\ 2 ^ 52 <= shr_m mrs1 < 2 ^ 53)
    \/ (f = -1074 /\ 0 <= shr_m mrs1 < 2 ^ 52)).
  { destruct (Z_le_gt_dec (-1074) (Zdigits2 mx + ex - 53)) as [Hn | Hs].
    - left. split; [lia |]. rewrite Hm1. split.
      + apply div_pow2_ge; try lia.
        replace (52 + (f - ex)) with (Zdigits2 mx - 1) by lia. exact Hlo.
      + apply div_pow2_lt; try lia.
        replace (53 + (f - ex)) with (Zdigits2 mx) by lia. exact Hhi.
    - right. split; [lia |]. rewrite Hm1. split.
      + apply Z.div_pos; [lia | apply pow2_pos; lia].
      + apply div_pow2_lt; try lia.
        apply Z.lt_le_trans with (1 := Hhi).
        apply Z.pow_le_mono_r; lia. }
  assert (Hbetween : mx / 2 ^ (f - ex) <= m2 <= mx / 2 ^ (f - ex) + 1)
    by (rewrite <- Hm1; lia).
  clear Hm1 Hlo Hhi.
  change (2 ^ 52) with 4503599627370496 in Hrange.
  change (2 ^ 53) with 9007199254740992 in Hrange.
  assert (Hm2nn : 0 <= m2) by lia.
  destruct (shr_fexp_spec m2 f loc_Exact Hm2nn) as [Hm3 He3].
  destruct (shr_fexp prec emax m2 f loc_Exact) as [mrs3 e3].
  cbn [fst snd] in Hm3, He3.
  destruct (Z_lt_le_dec m2 9007199254740992) as [Hsmall | Hbig].
  - assert (Hf2 : fexp64 (Zdigits2 m2 + f) = f).
    { rewrite fexp64_eq.
      destruct (Z.eq_dec m2 0) as [-> | Hnz]; [cbn [Zdigits2]; lia |].
      destruct Hrange as [[Hfn Hr] | [Hfs Hr]].
      - rewrite (Zdigits2_unique m2 53); [lia | | lia].
        change (2 ^ (53 - 1)) with 4503599627370496.
        change (2 ^ 53) with 9007199254740992. lia.
      - assert (Zdigits2 m2 <= 53).
        { apply Zdigits2_le; lia. }
        lia. }
    rewrite Hf2 in Hm3, He3.
    replace (Z.max 0 (f - f)) with 0 in Hm3 by lia.
    rewrite Z.pow_0_r, Z.div_1_r in Hm3.
    replace e3 with f by lia. rewrite Hm3.
    destruct m2 as [| p | p]; [| | lia].
    + split; [split; reflexivity |]. exists 0. split; [| exact Hbetween].
      cbn [scaled]. rewrite Z.mul_0_l, cond_Zopp_0. reflexivity.
    + change (emax - prec) with 971.
      replace (f <=? 971) with true by (symmetry; apply Z.leb_le; lia).
      split; [split; reflexivity |]. exists (Zpos p). split; [reflexivity | exact Hbetween].
  - assert (Hm2v : m2 = 9007199254740992) by lia.
    assert (Hfn : f = Zdigits2 mx + ex - 53) by lia.
    assert (Hf2 : fexp64 (Zdigits2 m2 + f) = f + 1).
    { rewrite Hm2v. cbn [Zdigits2 digits2_pos Pos.succ]. rewrite fexp64_eq. lia. }
    rewrite Hf2 in Hm3, He3.
    replace (Z.max 0 (f + 1 - f)) with 1 in Hm3 by lia.
    replace e3 with (f + 1) by lia. rewrite Hm3, Hm2v.
    change (9007199254740992 / 2 ^ 1) with (Zpos 4503599627370496).
    cbv iota beta. change (emax - prec) with 971.
    replace (f + 1 <=? 971) with true by (symmetry; apply Z.leb_le; lia).
    split; [split; reflexivity |]. exists m2. split; [| exact Hbetween].
    cbn [scaled]. f_equal. rewrite Hm2v.
    replace (f + 1 + 1074) with (Z.succ (f + 1074)) by lia.
    rewrite Z.pow_succ_r by lia. lia.
Qed.

(** One unit in the last place: the rounded mantissa is within one of the
    exact quotient. *)
Lemma round_error mx ex f m2 :
  0 < mx -> ex <= f -> -1074 <= ex ->
  mx / 2 ^ (f - ex) <= m2 <= mx / 2 ^ (f - ex) + 1 ->
  Z.abs (m2 * 2 ^ (f + 1074) - mx * 2 ^ (ex + 1074)) <= 2 ^ (f + 1074).
Proof.
  intros Hmx Hf Hex Hm2.
  replace (f + 1074) with ((f - ex) + (ex + 1074)) by lia.
  rewrite Z.pow_add_r by lia.
  pose proof (pow2_pos (f - ex) ltac:(lia)) as Hk.
  pose proof (pow2_pos (ex + 1074) ltac:(lia)) as Ha.
  pose proof (Z.div_mod mx (2 ^ (f - ex)) ltac:(lia)) as Hdm.
  pose proof (Z.mod_pos_bound mx (2 ^ (f - ex)) Hk) as Hmod.
  set (q := mx / 2 ^ (f - ex)) in *. set (k := 2 ^ (f - ex)) in *.
  set (a := 2 ^ (ex + 1074)) in *. set (r := mx mod k) in *.
  clearbody q k a r. subst mx. nia.
Qed.

Lemma abs_cond_Zopp s a b c :
  Z.abs (a - b) <= c -> Z.abs (cond_Zopp s a - cond_Zopp s b) <= c.
Proof. destruct s; cbn [cond_Zopp]; lia. Qed.

(** A canonical exponent below that of [2^g]. *)
Lemma fexp64_bound m e g :
  0 < m -> -1021 <= g -> m * 2 ^ (e + 1074) < 2 ^ (g + 1074) -> -1074 <= e ->
  fexp64 (Zdigits2 m + e) <= g - 53.
Proof.
  intros Hm Hg Hlt He. rewrite fexp64_eq.
  pose proof (Zdigits2_bounds m Hm) as [Hlo _].
  pose proof (Zdigits2_pos m Hm) as Hd.
  destruct (Z_le_gt_dec (Zdigits2 m + e) g) as [Hle | Hgt]; [lia |].
  exfalso.
  assert (2 ^ (g + 1074) <= 2 ^ (Zdigits2 m - 1) * 2 ^ (e + 1074)).
  { rewrite <- Z.pow_add_r by lia. apply Z.pow_le_mono_r; lia. }
  pose proof (pow2_pos (e + 1074) ltac:(lia)).
  nia.
Qed.

(** [binary_round] on an integer mantissa: the value is kept up to one
    unit in the last place. *)
Lemma binary_round_value sx mx ex g :
  -1074 <= ex -> -1021 <= g -> g <= 1023 ->
  Zpos mx * 2 ^ (ex + 1074) < 2 ^ (g + 1074) ->
  finite_valid (binary_round prec emax sx mx ex)
  /\ Z.abs (scaled (binary_round prec emax sx mx ex)
            - cond_Zopp sx (Zpos mx * 2 ^ (ex + 1074)))
     <= 2 ^ (g - 53 + 1074).
Proof.
  intros Hex Hg Hg' Hlt.
  pose proof (fexp64_bound (Zpos mx) ex g ltac:(lia) Hg Hlt Hex) as Hf.
  unfold binary_round, shl_align.
  change (Zpos (digits2_pos mx)) with (Zdigits2 (Zpos mx)).
  fold (fexp64 (Zdigits2 (Zpos mx) + ex)).
  set (f := fexp64 (Zdigits2 (Zpos mx) + ex)) in *.
  assert (Hf0 : -1074 <= f) by (subst f; rewrite fexp64_eq; lia).
  assert (Hpow : 2 ^ (f + 1074) <= 2 ^ (g - 53 + 1074))
    by (apply Z.pow_le_mono_r; lia).
  destruct (f - ex) as [| d | d] eqn:Hd.
  - (* already at the canonical exponent *)
    destruct (binary_round_aux_value sx (Zpos mx) ex loc_Exact)
      as [Hfv (m2 & Hs & Hm2)]; fold f; try lia.
    split; [exact Hfv |]. rewrite Hs.
    apply Z.le_trans with (2 := Hpow). apply abs_cond_Zopp.
    apply round_error; fold f; (lia || exact Hm2).
  - (* above it *)
    destruct (binary_round_aux_value sx (Zpos mx) ex loc_Exact)
      as [Hfv (m2 & Hs & Hm2)]; fold f; try lia.
    split; [exact Hfv |]. rewrite Hs.
    apply Z.le_trans with (2 := Hpow). apply abs_cond_Zopp.
    apply round_error; fold f; (lia || exact Hm2).
  - (* below it: the mantissa is shifted left, exactly *)
    assert (Hshift : Zdigits2 (Zpos (Pos.iter xO mx d)) + f = Zdigits2 (Zpos mx) + ex).
    { rewrite iter_xO_pow2, Zdigits2_shift by lia. lia. }
    pose proof (binary_round_aux_value sx (Zpos (Pos.iter xO mx d)) f loc_Exact)
      as H.
    cbv zeta in H. rewrite Hshift in H. fold f in H.
    destruct H as [Hfv (m2 & Hs & Hm2)]; try lia.
    split; [exact Hfv |]. rewrite Hs.
    apply Z.le_trans with (2 := Hpow). apply abs_cond_Zopp.
    replace (Zpos mx * 2 ^ (ex + 1074))
      with (Zpos (Pos.iter xO mx d) * 2 ^ (f + 1074)).
    + apply round_error; (lia || exact Hm2).
    + rewrite iter_xO_pow2. rewrite <- Z.mul_assoc, <- Z.pow_add_r by lia.
      f_equal. f_equal. lia.
Qed.

Lemma binary_normalize_value z e g :
  -1074 <= e -> -1021 <= g -> g <= 1023 ->
  Z.abs z * 2 ^ (e + 1074) < 2 ^ (g + 1074) ->
  finite_valid (binary_normalize prec emax z e false)
  /\ Z.abs (scaled (binary_normalize prec emax z e false) - z * 2 ^ (e + 1074))
     <= 2 ^ (g - 53 + 1074).
Proof.
  intros He Hg Hg' Hlt.
  pose proof (pow2_pos (g - 53 + 1074) ltac:(lia)) as Hp.
  destruct z as [| p | p]; cbn [binary_normalize].
  - split; [split; reflexivity |]. cbn [scaled]. lia.
  - apply (binary_round_value false p e g); assumption.
  - destruct (binary_round_value true p e g He Hg Hg' Hlt) as [Hfv Hb].
    split; [exact Hfv |]. cbn [cond_Zopp] in Hb.
    replace (Zneg p * 2 ^ (e + 1074)) with (- (Zpos p * 2 ^ (e + 1074))) by lia.
    exact Hb.
Qed.

Lemma shl_align_value m e e' :
  e' <= e ->
  Zpos (fst (shl_align m e e')) = Zpos m * 2 ^ (e - e').
Proof.
  intros H. unfold shl_align. destruct (e' - e) as [| d | d] eqn:Hd; cbn [fst].
  - replace (e - e') with 0 by lia. lia.
  - lia.
  - rewrite iter_xO_pow2. f_equal. f_equal. lia.
Qed.

Lemma finite_valid_exponent s m e :
  finite_valid (S754_finite s m e) -> -1074 <= e.
Proof. intros [_ H]. apply bounded_exponent in H. lia. Qed.

Lemma scaled_shift s m e ez :
  -1074 <= ez -> ez <= e ->
  cond_Zopp s (Zpos m * 2 ^ (e - ez)) * 2 ^ (ez + 1074)
  = scaled (S754_finite s m e).
Proof.
  intros H1 H2. cbn [scaled].
  replace (e + 1074) with ((e - ez) + (ez + 1074)) by lia.
  rewrite (Z.pow_add_r 2 (e - ez) (ez + 1074)) by lia.
  destruct s; cbn [cond_Zopp]; ring.
Qed.

(** Binary64 addition: below the overflow threshold the sum of two
    finite values is finite and within one unit in the last place of
    the exact sum. *)
Lemma add_value x y g :
  finite_valid x -> finite_valid y ->
  -1021 <= g -> g <= 1023 ->
  Z.abs (scaled x + scaled y) < 2 ^ (g + 1074) ->
  finite_valid (add x y)
  /\ Z.abs (scaled (add x y) - (scaled x + scaled y)) <= 2 ^ (g - 53 + 1074).
Proof.
  intros Hx Hy Hg Hg' Hlt.
  pose proof (pow2_pos (g - 53 + 1074) ltac:(lia)) as Hp.
  unfold add.
  destruct x as [sx | sx | | sx mx ex]; try (destruct Hx as [Hx _]; discriminate Hx);
    destruct y as [sy | sy | | sy my ey]; try (destruct Hy as [Hy _]; discriminate Hy).
  - cbn [SFadd]. split; [| destruct sx, sy; cbn [scaled]; lia].
    destruct sx, sy; split; reflexivity.
  - cbn [SFadd]. split; [exact Hy |]. cbn [scaled]. lia.
  - cbn [SFadd]. split; [exact Hx |]. cbn [scaled]. lia.
  - pose proof (finite_valid_exponent _ _ _ Hx) as Hex.
    pose proof (finite_valid_exponent _ _ _ Hy) as Hey.
    cbn [SFadd].
    rewrite (shl_align_value mx ex (Z.min ex ey)) by lia.
    rewrite (shl_align_value my ey (Z.min ex ey)) by lia.
    set (ez := Z.min ex ey).
    set (z := cond_Zopp sx (Zpos mx * 2 ^ (ex - ez))
              + cond_Zopp sy (Zpos my * 2 ^ (ey - ez))).
    assert (Hz : z * 2 ^ (ez + 1074)
                 = scaled (S754_finite sx mx ex) + scaled (S754_finite sy my ey)).
    { subst z. rewrite Z.mul_add_distr_r.
      rewrite !scaled_shift by (subst ez; lia). reflexivity. }
    rewrite <- Hz in Hlt |- *.
    assert (Habs : Z.abs z * 2 ^ (ez + 1074) < 2 ^ (g + 1074)).
    { pose proof (pow2_pos (ez + 1074) ltac:(subst ez; lia)).
      rewrite <- (Z.abs_eq (2 ^ (ez + 1074))) by lia.
      rewrite <- Z.abs_mul. exact Hlt. }
    apply binary_normalize_value; (exact Habs || (subst ez; lia)).
Qed.

(** ** Decimal amounts *)

Lemma neg_round_aux s m e l :
  neg (binary_round_aux prec emax s m e l)
  = binary_round_aux prec emax (negb s) m e l.
Proof.
  unfold neg, binary_round_aux.
  destruct (shr_fexp prec emax m e l) as [mrs1 e1].
  destruct (shr_fexp prec emax _ e1 loc_Exact) as [mrs2 e2].
  destruct (shr_m mrs2); [reflexivity | | reflexivity].
  destruct (e2 <=? emax - prec); reflexivity.
Qed.

Lemma neg_of_ratio n d : neg (of_ratio false n d) = of_ratio true n d.
Proof.
  unfold of_ratio. destruct (SFdiv_core_binary prec emax n 0 d 0) as [[q e] l].
  apply neg_round_aux.
Qed.

Lemma cents_negative n : 0 < n -> cents (- n) = of_ratio true n 100.
Proof.
  intros Hn. unfold cents.
  replace (- n <? 0) with true by (symmetry; apply Z.ltb_lt; lia).
  rewrite Z.opp_involutive. apply neg_of_ratio.
Qed.

Lemma cents_positive n : 0 <= n -> cents n = of_ratio false n 100.
Proof.
  intros Hn. unfold cents.
  replace (n <? 0) with false by (symmetry; apply Z.ltb_ge; lia). reflexivity.
Qed.

(** The binary64 value read from [n / 100] is within one unit in the
    last place of it. *)
Lemma of_ratio_100_value s n :
  0 < n -> Zdigits2 n <= 60 ->
  finite_valid (of_ratio s n 100)
  /\ Z.abs (100 * scaled (of_ratio s n 100) - cond_Zopp s (n * 2 ^ 1074))
     <= 100 * 2 ^ (Zdigits2 n - 59 + 1074).
Proof.
  intros Hn Hsm. unfold of_ratio, SFdiv_core_binary.
  pose proof (Zdigits2_bounds n Hn) as [Hlo Hhi].
  pose proof (Zdigits2_pos n Hn) as Hdn.
  change (Zdigits2 100) with 7.
  fold (fexp64 (Zdigits2 n + 0 - (7 + 0))). rewrite fexp64_eq.
  set (e0 := Z.min (Z.max (Zdigits2 n + 0 - (7 + 0) - 53) (-1074)) (0 - 0)).
  assert (He0 : e0 = Zdigits2 n - 60) by lia.
  set (m' := match 0 - 0 - e0 with
             | 0 => n | Zpos _ => Z.shiftl n (0 - 0 - e0) | Zneg _ => 0 end).
  assert (Hm' : m' = n * 2 ^ (- e0)).
  { subst m'. destruct (0 - 0 - e0) as [| p | p] eqn:Hs.
    - replace (- e0) with 0 by lia. rewrite Z.pow_0_r. lia.
    - rewrite Z.shiftl_mul_pow2 by lia. f_equal. f_equal. lia.
    - lia. }
  clearbody m'.
  assert (Hq : Z.div_eucl m' 100 = (m' / 100, m' mod 100)).
  { unfold Z.div, Z.modulo. destruct (Z.div_eucl m' 100); reflexivity. }
  rewrite Hq. set (q := m' / 100).
  assert (Hm'b : 2 ^ 59 <= m' < 2 ^ 60).
  { rewrite Hm'. replace (- e0) with (60 - Zdigits2 n) by lia.
    pose proof (pow2_pos (60 - Zdigits2 n)) as H2. split.
    - replace 59 with (Zdigits2 n - 1 + (60 - Zdigits2 n)) by lia.
      rewrite Z.pow_add_r by lia. apply Z.mul_le_mono_nonneg_r; lia.
    - replace 60 with (Zdigits2 n + (60 - Zdigits2 n)) at 2 by lia.
      rewrite Z.pow_add_r by lia. apply Z.mul_lt_mono_pos_r; lia. }
  change (2 ^ 59) with 576460752303423488 in Hm'b.
  change (2 ^ 60) with 1152921504606846976 in Hm'b.
  assert (Hqv : 5764607523034234 <= q <= 11529215046068469).
  { subst q. split.
    - apply Z.div_le_lower_bound; lia.
    - apply Z.lt_succ_r, Z.div_lt_upper_bound; lia. }
  assert (Hd53 : 53 <= Zdigits2 q) by (apply (Zdigits2_ge q 52); lia).
  assert (Hd54 : Zdigits2 q <= 54) by (apply Zdigits2_le; lia).
  assert (Hf : fexp64 (Zdigits2 q + e0) = Zdigits2 q + e0 - 53)
    by (rewrite fexp64_eq; lia).
  pose proof (binary_round_aux_value s q e0 (new_location 100 (m' mod 100))) as H.
  cbv zeta in H. rewrite Hf in H.
  destruct H as [Hfv (m2 & Hs & Hm2)]; try lia.
  split; [exact Hfv |]. rewrite Hs.
  set (k := Zdigits2 q + e0 - 53 - e0) in *.
  assert (Hk : 0 <= k <= 1) by (subst k; lia).
  pose proof (pow2_pos k ltac:(lia)) as HD.
  pose proof (Z.div_mod q (2 ^ k) ltac:(lia)) as Hdq.
  pose proof (Z.mod_pos_bound q (2 ^ k) HD) as Hmq.
  pose proof (Z.div_mod m' 100 ltac:(lia)) as Hdm.
  pose proof (Z.mod_pos_bound m' 100 ltac:(lia)) as Hmm.
  fold q in Hdm.
  assert (Hcore : Z.abs (100 * (m2 * 2 ^ k) - m') <= 100 * 2 ^ k).
  { set (D := 2 ^ k) in *. set (m1 := q / D) in *.
    set (rq := q mod D) in *. set (rm := m' mod 100) in *.
    clearbody D m1 rq rm. nia. }
  assert (Hpow1 : 2 ^ (Zdigits2 q + e0 - 53 + 1074) = 2 ^ k * 2 ^ (e0 + 1074)).
  { rewrite <- Z.pow_add_r by lia. f_equal. subst k. lia. }
  assert (Hpow2 : n * 2 ^ 1074 = m' * 2 ^ (e0 + 1074)).
  { rewrite Hm', <- Z.mul_assoc, <- Z.pow_add_r by lia. f_equal. f_equal. lia. }
  assert (Hpow3 : 2 ^ k * 2 ^ (e0 + 1074) <= 2 ^ (Zdigits2 n - 59 + 1074)).
  { rewrite <- Z.pow_add_r by lia. apply Z.pow_le_mono_r; subst k; lia. }
  rewrite Hpow1, Hpow2.
  pose proof (pow2_pos (e0 + 1074) ltac:(lia)) as HA.
  set (A := 2 ^ (e0 + 1074)) in *. set (D := 2 ^ k) in *.
  clearbody A D.
  assert (Z.abs (100 * (m2 * (D * A)) - m' * A) <= 100 * (D * A)).
  { replace (100 * (m2 * (D * A)) - m' * A) with ((100 * (m2 * D) - m') * A) by ring.
    rewrite Z.abs_mul, (Z.abs_eq A) by lia. nia. }
  destruct s; cbn [cond_Zopp]; lia.
Qed.


(** An amount of at most [2^38] cents is read with an error of at most
    [2^-21]. *)
Lemma cents_value z :
  Z.abs z < 2 ^ 38 ->
  finite_valid (cents z)
  /\ Z.abs (100 * scaled (cents z) - z * 2 ^ 1074) <= 100 * 2 ^ 1053.
Proof.
  intros Hz.
  assert (Hpos : forall s n, 0 < n -> n < 2 ^ 38 ->
            finite_valid (of_ratio s n 100)
            /\ Z.abs (100 * scaled (of_ratio s n 100) - cond_Zopp s (n * 2 ^ 1074))
               <= 100 * 2 ^ 1053).
  { intros s n Hn Hlt.
    assert (Hd : Zdigits2 n <= 38) by (apply Zdigits2_le; lia).
    destruct (of_ratio_100_value s n Hn ltac:(lia)) as [Hfv Hb].
    split; [exact Hfv |]. apply Z.le_trans with (1 := Hb).
    apply Z.mul_le_mono_nonneg_l; [lia |].
    apply Z.pow_le_mono_r; lia. }
  pose proof (pow2_pos 1053 ltac:(lia)) as HE.
  destruct (Z.lt_trichotomy z 0) as [Hneg | [-> | Hp]].
  - replace z with (- (- z)) by lia. rewrite cents_negative by lia.
    destruct (Hpos true (- z)) as [Hfv Hb]; try lia.
    split; [exact Hfv |]. cbn [cond_Zopp] in Hb.
    replace (- - z * 2 ^ 1074) with (- (- z * 2 ^ 1074)) by ring. exact Hb.
  - split; [split; reflexivity |]. change (cents 0) with (S754_zero false).
    cbn [scaled]. lia.
  - rewrite cents_positive by lia.
    destruct (Hpos false z) as [Hfv Hb]; try lia.
    split; [exact Hfv |]. exact Hb.
Qed.

(** ** The sum of decimal amounts *)

Lemma sum_value zl : forall (acc : number) (P c : Z),
  finite_valid acc ->
  Z.abs (100 * scaled acc - P * 2 ^ 1074) <= 100 * c * 2 ^ 1053 ->
  0 <= c -> c + 2 * Z.of_nat (List.length zl) <= 2002 ->
  Z.abs P + turnover zl <= 10 ^ 11 ->
  let S := fold_left add (map cents zl) acc in
  finite_valid S
  /\ Z.abs (100 * scaled S - (P + total zl) * 2 ^ 1074)
     <= 100 * (c + 2 * Z.of_nat (List.length zl)) * 2 ^ 1053.
Proof.
  induction zl as [| z zl IH]; intros acc P c Hacc Hb Hc Hn Hmag S.
  - subst S. cbn [map fold_left total fold_right List.length Z.of_nat].
    split; [exact Hacc |]. rewrite Z.add_0_r, Z.mul_0_r, Z.add_0_r. exact Hb.
  - subst S. cbn [map fold_left].
    cbn [turnover total map fold_right] in Hmag.
    fold (total (map Z.abs zl)) in Hmag. fold (turnover zl) in Hmag.
    assert (Hturn : 0 <= turnover zl).
    { clear. unfold turnover, total. induction zl as [| x l IHl];
        cbn [map fold_right]; lia. }
    change (10 ^ 11) with 100000000000 in Hmag.
    destruct (cents_value z) as [Hz Hzb];
      [change (2 ^ 38) with 274877906944; lia |].
    pose proof (pow2_pos 1053 ltac:(lia)) as HE.
    assert (HK : 2 ^ 1074 = 2097152 * 2 ^ 1053).
    { change 1074 with (21 + 1053). rewrite Z.pow_add_r by lia. reflexivity. }
    assert (HG : 2 ^ (31 + 1074) = 2147483648 * 2 ^ 1074).
    { rewrite Z.pow_add_r by lia. reflexivity. }
    assert (HU : 2 ^ (31 - 53 + 1074) <= 2 ^ 1053)
      by (apply Z.pow_le_mono_r; lia).
    rewrite List.length_cons, Nat2Z.inj_succ in Hn |- *.
    set (E := 2 ^ 1053) in *. set (K := 2 ^ 1074) in *.
    set (n := Z.of_nat (List.length zl)) in *.
    assert (Hn0 : 0 <= n) by (subst n; lia).
    assert (HcE : 0 <= c * E <= 2002 * E) by nia.
    assert (HPz : Z.abs (P * K + z * K) <= 100000000000 * K).
    { replace (P * K + z * K) with ((P + z) * K) by ring.
      rewrite Z.abs_mul, (Z.abs_eq K) by lia. nia. }
    assert (Hsmall : Z.abs (scaled acc + scaled (cents z)) < 2 ^ (31 + 1074))
      by (rewrite HG; fold K; lia).
    destruct (add_value acc (cents z) 31 Hacc Hz ltac:(lia) ltac:(lia) Hsmall)
      as [Hfv Hab].
    assert (Hnext : Z.abs (100 * scaled (add acc (cents z)) - (P + z) * 2 ^ 1074)
                    <= 100 * (c + 2) * 2 ^ 1053).
    { replace ((P + z) * 2 ^ 1074) with (P * K + z * K) by (subst K; ring).
      replace (100 * (c + 2) * 2 ^ 1053) with (100 * (c * E) + 200 * E)
        by (subst E; ring).
      lia. }
    destruct (IH (add acc (cents z)) (P + z) (c + 2) Hfv Hnext
                ltac:(lia) ltac:(lia) ltac:(lia)) as [HfS HbS].
    split; [exact HfS |].
    cbn [total fold_right]. fold (total zl).
    replace (P + (z + total zl)) with (P + z + total zl) by ring.
    replace (c + 2 * Z.succ n) with (c + 2 + 2 * n) by lia.
    exact HbS.
Qed.

(** ** Rounding a value that is close to a whole number of cents *)

(** A finite value within a quarter of a cent of [z / 100] is rounded by
    [round2] to the decimal [z / 100]: to [cents z], or to a zero of
    either sign when [z = 0]. *)
Lemma round2_recovers T z :
  finite_valid T -> Z.abs z < 2 ^ 38 ->
  4 * Z.abs (100 * scaled T - z * 2 ^ 1074) <= 2 ^ 1074 ->
  (z <> 0 -> round2 T = cents z)
  /\ (z = 0 -> exists s, round2 T = S754_zero s).
Proof.
  intros HT Hz Hb.
  pose proof (pow2_pos 1074 ltac:(lia)) as HK.
  change (2 ^ 38) with 274877906944 in Hz.
  destruct T as [sT | sT | | sT m e];
    try (destruct HT as [HT _]; discriminate HT).
  - cbn [scaled] in Hb. split.
    + intros Hnz. exfalso. rewrite Z.mul_0_r, Z.sub_0_l, Z.abs_opp in Hb.
      rewrite Z.abs_mul, (Z.abs_eq (2 ^ 1074)) in Hb by lia. nia.
    + intros _. exists false. reflexivity.
  - pose proof (finite_valid_exponent _ _ _ HT) as He.
    cbn [scaled] in Hb.
    set (w := cond_Zopp sT z).
    assert (Hw : 4 * Z.abs (100 * (Zpos m * 2 ^ (e + 1074)) - w * 2 ^ 1074)
                 <= 2 ^ 1074).
    { subst w. destruct sT; cbn [cond_Zopp] in Hb |- *; [| exact Hb].
      replace (100 * (Z.pos m * 2 ^ (e + 1074)) - - z * 2 ^ 1074)
        with (- (100 * - (Z.pos m * 2 ^ (e + 1074)) - z * 2 ^ 1074)) by ring.
      rewrite Z.abs_opp. exact Hb. }
    assert (Hwz : Z.abs w = Z.abs z) by (subst w; destruct sT; cbn [cond_Zopp]; lia).
    assert (Hfix : nearest_scaled 2 m e = w /\ at_least_1e21 m e = false).
    { unfold at_least_1e21. change (10 ^ 21) with 1000000000000000000000.
      destruct e as [| p | p].
      - unfold nearest_scaled. change (10 ^ 2) with 100.
        rewrite Z.add_0_l in Hw.
        replace (100 * (Z.pos m * 2 ^ 1074) - w * 2 ^ 1074)
          with ((100 * Z.pos m - w) * 2 ^ 1074) in Hw by ring.
        rewrite Z.abs_mul, (Z.abs_eq (2 ^ 1074)) in Hw by lia.
        assert (100 * Z.pos m = w) by nia.
        split; [rewrite Z.pow_0_r; lia |]. apply Z.leb_gt.
        rewrite Z.pow_0_r. lia.
      - unfold nearest_scaled. change (10 ^ 2) with 100.
        pose proof (pow2_pos (Zpos p) ltac:(lia)) as HD.
        rewrite (Z.pow_add_r 2 (Zpos p) 1074) in Hw by lia.
        replace (100 * (Z.pos m * (2 ^ Z.pos p * 2 ^ 1074)) - w * 2 ^ 1074)
          with ((100 * Z.pos m * 2 ^ Z.pos p - w) * 2 ^ 1074) in Hw by ring.
        rewrite Z.abs_mul, (Z.abs_eq (2 ^ 1074)) in Hw by lia.
        assert (100 * Z.pos m * 2 ^ Z.pos p = w) by nia.
        split; [exact H |]. apply Z.leb_gt. lia.
      - pose proof (nearest_scaled_spec 2 m p ltac:(lia)) as Hn.
        cbv zeta in Hn. change (10 ^ 2) with 100 in Hn.
        set (n := nearest_scaled 2 m (Zneg p)) in *.
        pose proof (pow2_pos (Zpos p) ltac:(lia)) as HD.
        pose proof (pow2_pos (1074 - Zpos p) ltac:(lia)) as HF.
        assert (HKs : 2 ^ 1074 = 2 ^ Zpos p * 2 ^ (1074 - Zpos p)).
        { rewrite <- Z.pow_add_r by lia. f_equal. lia. }
        replace (Zneg p + 1074) with (1074 - Zpos p) in Hw by lia.
        rewrite HKs in Hw.
        set (D := 2 ^ Zpos p) in *. set (F := 2 ^ (1074 - Zpos p)) in *.
        replace (100 * (Z.pos m * F) - w * (D * F))
          with ((100 * Z.pos m - w * D) * F) in Hw by ring.
        rewrite Z.abs_mul, (Z.abs_eq F) in Hw by lia.
        assert (Hq : 4 * Z.abs (100 * Z.pos m - w * D) <= D).
        { clearbody D F. nia. }
        clearbody D n. split; [nia |]. apply Z.leb_gt. nia. }
    destruct Hfix as [Hn Hlarge].
    assert (Hr : round2 (S754_finite sT m e) = of_ratio sT w 100).
    { unfold round2, toFixed2. rewrite Hlarge, Hn. reflexivity. }
    assert (Hw0 : 0 <= w).
    { rewrite <- Hn. apply nearest_scaled_nonneg. }
    rewrite Hr. split.
    + intros Hnz. subst w. destruct sT; cbn [cond_Zopp] in *.
      * replace z with (- (- z)) at 2 by lia. rewrite cents_negative by lia.
        reflexivity.
      * rewrite cents_positive by lia. reflexivity.
    + intros ->. subst w. exists sT.
      replace (cond_Zopp sT 0) with 0 by (destruct sT; reflexivity).
      apply of_ratio_0.
Qed.

Lemma cents_finite z : Z.abs z < 2 ^ 38 -> is_finite (cents z) = true.
Proof. intros H. apply (cents_value z H). Qed.

Lemma round2_cents z : Z.abs z < 2 ^ 38 -> round2 (cents z) = cents z.
Proof.
  intros Hz. destruct (Z.eq_dec z 0) as [-> | Hnz]; [reflexivity |].
  destruct (cents_value z Hz) as [Hfv Hb].
  apply (round2_recovers (cents z) z Hfv Hz); [| exact Hnz].
  assert (HK : 2 ^ 1074 = 2097152 * 2 ^ 1053).
  { change 1074 with (21 + 1053). rewrite Z.pow_add_r by lia. reflexivity. }
  pose proof (pow2_pos 1053 ltac:(lia)).
  rewrite HK in Hb |- *. lia.
Qed.

Lemma total_le_turnover zl : Z.abs (total zl) <= turnover zl.
Proof.
  unfold turnover, total. induction zl as [| z zl IH]; cbn [map fold_right]; lia.
Qed.

Lemma turnover_bounds zl z : In z zl -> Z.abs z <= turnover zl.
Proof.
  unfold turnover, total. induction zl as [| x zl IH]; cbn [map fold_right In];
    [contradiction |].
  assert (0 <= fold_right Z.add 0 (map Z.abs zl)).
  { clear. induction zl as [| y l IHl]; cbn [map fold_right]; lia. }
  intros [-> | Hin]; [lia | specialize (IH Hin); lia].
Qed.

(** A list of numeric amounts is summed as the list of its numbers. *)
Lemma sum_of_numbers (l : list Transaction) (xs : list number) :
  map amount l = map JNumber xs ->
  Forall (fun x => isNaN x = false) xs ->
  sumOfTransactions l = fold_left add xs pos_zero.
Proof.
  unfold sumOfTransactions. generalize pos_zero. revert xs.
  induction l as [| tx l IH]; intros [| x xs] acc Hmap Hnan;
    try discriminate Hmap; [reflexivity |].
  cbn [map] in Hmap. injection Hmap as Hx Hl.
  inversion Hnan as [| ? ? Hx0 Hxs]; subst.
  cbn [filter]. unfold valid_amount at 1. rewrite Hx.
  cbn [typeof_is_number number_value andb]. rewrite Hx0. cbn [negb fold_left].
  unfold add_amount at 2. rewrite Hx. cbn [number_value].
  apply IH; assumption.
Qed.

(** The reconciliation of a statement in decimal amounts that add up. *)
Lemma decimal_statement_reconciles (zs ze : Z) (l : list Transaction) (zl : list Z) :
  map amount l = map (fun z => JNumber (cents z)) zl ->
  zs + total zl = ze ->
  Z.abs zs <= 10 ^ 11 -> turnover zl <= 10 ^ 11 ->
  (List.length zl <= 1000)%nat ->
  sub (round2 (cents ze)) (round2 (add (cents zs) (sumOfTransactions l)))
  = pos_zero.
Proof.
  intros Hmap Hsum Hzs Hturn Hlen.
  change (10 ^ 11) with 100000000000 in Hzs, Hturn.
  pose proof (total_le_turnover zl) as Htot.
  assert (Hsmall : forall z, Z.abs z <= 200000000000 -> Z.abs z < 2 ^ 38)
    by (intros z Hz; change (2 ^ 38) with 274877906944; lia).
  rewrite (sum_of_numbers l (map cents zl)).
  2: { rewrite Hmap, map_map. reflexivity. }
  2: { apply Forall_forall. intros x Hx. apply in_map_iff in Hx.
       destruct Hx as (z & <- & Hz). apply turnover_bounds in Hz.
       destruct (cents_value z ltac:(apply Hsmall; lia)) as [[Hfin _] _].
       destruct (cents z); try discriminate Hfin; reflexivity. }
  pose proof (pow2_pos 1053 ltac:(lia)) as HE.
  assert (HK : 2 ^ 1074 = 2097152 * 2 ^ 1053).
  { change 1074 with (21 + 1053). rewrite Z.pow_add_r by lia. reflexivity. }
  assert (HG : 2 ^ (31 + 1074) = 2147483648 * 2 ^ 1074).
  { rewrite Z.pow_add_r by lia. reflexivity. }
  assert (HU : 2 ^ (31 - 53 + 1074) <= 2 ^ 1053)
    by (apply Z.pow_le_mono_r; lia).
  destruct (sum_value zl pos_zero 0 0) as [HfS HbS];
    [split; reflexivity | unfold pos_zero; cbn [scaled]; lia | lia | lia
     | change (10 ^ 11) with 100000000000; lia |].
  cbv zeta in HfS, HbS.
  set (S := fold_left add (map cents zl) pos_zero) in *.
  destruct (cents_value zs ltac:(apply Hsmall; lia)) as [Hfs Hbs].
  set (E := 2 ^ 1053) in *. set (K := 2 ^ 1074) in *.
  set (n := Z.of_nat (List.length zl)) in *.
  assert (Hn : 0 <= n <= 1000) by (subst n; lia).
  assert (HnE : 0 <= n * E <= 1000 * E) by nia.
  assert (Hmag : Z.abs (zs * K + total zl * K) <= 200000000000 * K).
  { replace (zs * K + total zl * K) with ((zs + total zl) * K) by ring.
    rewrite Z.abs_mul, (Z.abs_eq K) by lia. nia. }
  rewrite Z.add_0_l in HbS.
  replace (100 * (0 + 2 * n) * E) with (200 * (n * E)) in HbS by ring.
  assert (Hlt : Z.abs (scaled (cents zs) + scaled S) < 2 ^ (31 + 1074))
    by (rewrite HG; fold K; lia).
  destruct (add_value (cents zs) S 31 Hfs HfS ltac:(lia) ltac:(lia) Hlt)
    as [HfT HbT].
  set (T := add (cents zs) S) in *.
  assert (Hclose : 4 * Z.abs (100 * scaled T - ze * K) <= K).
  { replace (ze * K) with (zs * K + total zl * K) by (subst ze; ring). lia. }
  assert (Hze : Z.abs ze < 2 ^ 38) by (apply Hsmall; lia).
  destruct (round2_recovers T ze HfT Hze Hclose) as [Hnz Hz].
  rewrite (round2_cents ze Hze).
  destruct (Z.eq_dec ze 0) as [H0 | Hne].
  - destruct (Hz H0) as [s ->]. rewrite H0. destruct s; reflexivity.
  - rewrite (Hnz Hne). apply sub_diag, cents_finite, Hze.
Qed.

(** * Worked examples *)

Example example_statement_run :
  returned (performReconciliation example_statement)
  = Some {| calculatedEndingBalance := Some (cents 155000);
            difference := Some pos_zero;
            matches := true |}.
Proof. vm_compute. reflexivity. Qed.

Example example_one_cent_run :
  returned (performReconciliation example_one_cent)
  = Some {| calculatedEndingBalance := Some (cents 154999);
            difference := Some (cents 1);
            matches := true |}.
Proof. vm_compute. reflexivity. Qed.

Example example_missing_run :
  returned (performReconciliation example_missing) = Some insufficient.
Proof. reflexivity. Qed.

(** * The claims *)

(** C1 as stated fails when "valid" is what the filtering rule of the
    specification says, a finite number: an amount of [-Infinity] is
    summed, so the calculated balance is [-Infinity] and not the rounded
    sum of the starting balance and the finite amounts, 150.00. *)
Lemma C1_counterexample :
  let l := [tx_of (JNumber (cents 5000)); tx_of (JNumber (S754_infinity true))] in
  let data := statement (Some (cents 10000)) (Some (cents 15000)) (Some l) in
  filter finite_amount l = [tx_of (JNumber (cents 5000))]
  /\ round2 (add (cents 10000)
               (fold_left add_amount (filter finite_amount l) pos_zero))
     = cents 15000
  /\ returned (performReconciliation data)
     = Some {| calculatedEndingBalance := Some (S754_infinity true);
               difference := Some Infinity;
               matches := false |}.
Proof. repeat split; vm_compute; reflexivity. Qed.

(** C1, amended. With both balances and the transaction list present, the
    result carries [calculatedEndingBalance = round2 (startingBalance + the
    left-to-right sum of the amounts that are numbers other than NaN)], an
    infinite amount included, [difference = round2 (round2 endingBalance -
    calculatedEndingBalance)], and [matches] is true exactly when
    [|difference| < 0.015]. *)
Theorem C1_reconciliation_formula data s e l :
  startingBalance data = Some s -> endingBalance data = Some e ->
  transactions data = Some l ->
  exists r calc diff,
    returned (performReconciliation data) = Some r
    /\ calculatedEndingBalance r = Some calc /\ difference r = Some diff
    /\ calc = round2 (add s (fold_left add (numeric_amounts l) pos_zero))
    /\ diff = round2 (sub (round2 e) calc)
    /\ (matches r = true <-> lt (Math_abs diff) tolerance = true).
Proof.
  intros Hs He Hl.
  exists (reconciled s e l), (round2 (add s (sumOfTransactions l))),
    (round2 (sub (round2 e) (round2 (add s (sumOfTransactions l))))).
  split; [apply returned_reconciled; assumption |].
  split; [reflexivity |]. split; [reflexivity |].
  split; [unfold sumOfTransactions; rewrite sum_numeric_amounts; reflexivity |].
  split; [reflexivity |]. reflexivity.
Qed.

Lemma C1_witness :
  exists r calc diff,
    returned (performReconciliation
                (statement (Some (cents 120000)) (Some (cents 155000))
                   (Some [tx_of (JNumber (cents 50000)); tx_of (JString "n/a");
                          tx_of (JNumber NaN); tx_of (JNumber (cents (-15000)))])))
    = Some r
    /\ calculatedEndingBalance r = Some calc /\ difference r = Some diff
    /\ calc = round2 (add (cents 120000)
                (fold_left add
                   (numeric_amounts
                      [tx_of (JNumber (cents 50000)); tx_of (JString "n/a");
                       tx_of (JNumber NaN); tx_of (JNumber (cents (-15000)))])
                   pos_zero))
    /\ diff = round2 (sub (round2 (cents 155000)) calc)
    /\ (matches r = true <-> lt (Math_abs diff) tolerance = true).
Proof.
  apply (C1_reconciliation_formula
           (statement (Some (cents 120000)) (Some (cents 155000))
              (Some [tx_of (JNumber (cents 50000)); tx_of (JString "n/a");
                     tx_of (JNumber NaN); tx_of (JNumber (cents (-15000)))])));
    reflexivity.
Defined.

(** C2. When the starting balance, the ending balance or the transaction
    list is absent, the run stops at the guard: it returns the result with
    both numeric fields absent and [matches = false], and the console shows
    the warning only, no transaction is filtered or summed. *)
Theorem C2_missing_data_short_circuits data :
  startingBalance data = None \/ endingBalance data = None
  \/ transactions data = None ->
  performReconciliation data
  = (inr {| calculatedEndingBalance := None; difference := None; matches := false |},
     [LogPerforming; WarnCannotReconcile]).
Proof. apply run_insufficient. Qed.

Lemma C2_witness :
  performReconciliation example_missing
  = (inr {| calculatedEndingBalance := None; difference := None; matches := false |},
     [LogPerforming; WarnCannotReconcile]).
Proof.
  apply (C2_missing_data_short_circuits example_missing). left. reflexivity.
Defined.

(** C3 as stated fails: an amount of [Infinity] ([JSON.parse] reads [1e999]
    as such) is not finite, yet it passes the filter and is summed; the
    result differs from the one of the finite sub-list. *)
Lemma C3_counterexample :
  let tx := tx_of (JNumber Infinity) in
  let data := statement (Some pos_zero) (Some pos_zero) (Some [tx]) in
  finite_amount tx = false
  /\ valid_amount tx = true
  /\ returned (performReconciliation data)
     = Some {| calculatedEndingBalance := Some Infinity;
               difference := Some (S754_infinity true);
               matches := false |}
  /\ returned (performReconciliation (with_transactions data (filter finite_amount [tx])))
     = Some {| calculatedEndingBalance := Some pos_zero;
               difference := Some pos_zero;
               matches := true |}.
Proof. repeat split. Qed.

(** C3, amended. A transaction is kept exactly when its amount has type
    number and is not NaN (an infinite amount is kept); the others are
    dropped from the sum, the result is the one of the kept sub-list, and
    with both balances present the console reports how many were dropped. *)
Theorem C3_invalid_amounts_excluded data l :
  transactions data = Some l ->
  (forall tx, valid_amount tx = true
              <-> exists x, amount tx = JNumber x /\ isNaN x = false)
  /\ returned (performReconciliation data)
     = returned (performReconciliation (with_transactions data (filter valid_amount l)))
  /\ (forall s e, startingBalance data = Some s -> endingBalance data = Some e ->
        returned (performReconciliation data)
        = Some (reconciled s e (filter valid_amount l))
        /\ (filter valid_amount l <> l ->
            In (WarnExcluded (List.length l - List.length (filter valid_amount l)))
               (console_of (performReconciliation data)))).
Proof.
  intros Hl. split; [exact valid_amount_iff |]. split.
  - apply (returned_same_sum data l); [exact Hl | symmetry; apply sum_of_valid].
  - intros s e Hs He. split.
    + rewrite (returned_reconciled data s e l Hs He Hl).
      unfold reconciled. rewrite sum_of_valid. reflexivity.
    + intros Hne. rewrite (run_reconciled data s e l Hs He Hl).
      unfold console_of, excluded_warning. cbn [snd].
      destruct (Nat.eqb (List.length (filter valid_amount l)) (List.length l)) eqn:Hlen.
      * exfalso. apply Hne. apply Nat.eqb_eq in Hlen. revert Hlen. clear.
        induction l as [| t l IH]; [reflexivity |]. cbn [filter].
        destruct (valid_amount t); cbn [List.length]; intros H.
        -- f_equal. apply IH. lia.
        -- pose proof (filter_length_le valid_amount l). lia.
      * cbn. auto.
Qed.

Lemma C3_witness :
  let l := [tx_of (JString "n/a"); tx_of (JNumber (cents 35000))] in
  returned (performReconciliation
              (statement (Some (cents 120000)) (Some (cents 155000)) (Some l)))
  = returned (performReconciliation
                (statement (Some (cents 120000)) (Some (cents 155000))
                   (Some (filter valid_amount l)))).
Proof.
  exact (proj1 (proj2 (C3_invalid_amounts_excluded
    (statement (Some (cents 120000)) (Some (cents 155000))
       (Some [tx_of (JString "n/a"); tx_of (JNumber (cents 35000))])) _ eq_refl))).
Defined.

(** C4 as stated fails on an empty transaction list with equal balances,
    and on a list whose only transaction is malformed: the numeric fields
    are populated and [matches] is true. *)
Lemma C4_counterexample :
  let empty := statement (Some (cents 10000)) (Some (cents 10000)) (Some []) in
  let malformed := statement (Some (cents 10000)) (Some (cents 10000))
                     (Some [tx_of (JString "12.50")]) in
  returned (performReconciliation empty)
  = Some {| calculatedEndingBalance := Some (cents 10000);
            difference := Some pos_zero;
            matches := true |}
  /\ valid_amount (tx_of (JString "12.50")) = false
  /\ returned (performReconciliation malformed)
     = Some {| calculatedEndingBalance := Some (cents 10000);
               difference := Some pos_zero;
               matches := true |}.
Proof. repeat split; vm_compute; reflexivity. Qed.

(** C4, amended. No input raises an error.  A missing balance or a missing
    transaction list gives the result with absent numeric fields and
    [matches = false].  Malformed transactions are dropped and the others
    reconciled; an empty list is reconciled with sum [0], so both give
    populated numeric fields, and [matches] is the tolerance test on the
    rounded balances. *)
Theorem C4_anomalous_inputs data :
  (exists r, returned (performReconciliation data) = Some r)
  /\ (startingBalance data = None \/ endingBalance data = None
      \/ transactions data = None ->
      returned (performReconciliation data) = Some insufficient)
  /\ (forall s e, startingBalance data = Some s -> endingBalance data = Some e ->
        transactions data = Some [] ->
        returned (performReconciliation data)
        = Some {| calculatedEndingBalance := Some (round2 (add s pos_zero));
                  difference :=
                    Some (round2 (sub (round2 e) (round2 (add s pos_zero))));
                  matches :=
                    within_tolerance
                      (round2 (sub (round2 e) (round2 (add s pos_zero)))) |})
  /\ (forall s e l, startingBalance data = Some s -> endingBalance data = Some e ->
        transactions data = Some l ->
        returned (performReconciliation data)
        = Some (reconciled s e (filter valid_amount l))).
Proof.
  split; [| split; [| split]].
  - destruct (returned_cases data) as [H | (s & e & l & _ & _ & _ & H)]; eauto.
  - apply returned_insufficient.
  - intros s e Hs He Hl. apply (returned_reconciled data s e [] Hs He Hl).
  - intros s e l Hs He Hl. rewrite (returned_reconciled data s e l Hs He Hl).
    unfold reconciled. rewrite sum_of_valid. reflexivity.
Qed.

Lemma C4_witness :
  returned (performReconciliation example_missing) = Some insufficient.
Proof.
  apply (proj1 (proj2 (C4_anomalous_inputs example_missing))).
  left. reflexivity.
Defined.

(** C5 as stated fails under either reading of "sum exactly".  In
    binary64, [1 - 1e16] and the sum of [[-1e16]] are both [-1e16], yet
    the difference is 1.  In exact arithmetic [2^53 + 1 + 1 - 2^53 = 2 - 0],
    yet the code's sum is [0] and the difference is 2.  And at small
    magnitudes, for amounts that are not decimals with two digits:
    [0.125 - 2^-55] and four times [2^-57] sum exactly to [0.125], the
    code's sum stays [0.125 - 2^-55], which rounds to 0.12 while 0.125
    rounds to 0.13, and the difference is 0.01. *)
Lemma C5_counterexample :
  let s1 := of_Z 10000000000000000 in
  let e1 := of_Z 1 in
  let l1 := [tx_of (JNumber (of_Z (-10000000000000000)))] in
  let s2 := of_Z 0 in
  let e2 := of_Z 2 in
  let l2 := [tx_of (JNumber (of_Z 9007199254740992)); tx_of (JNumber (of_Z 1));
             tx_of (JNumber (of_Z 1)); tx_of (JNumber (of_Z (-9007199254740992)))] in
  let s3 := of_Z 0 in
  let e3 := of_ratio false 1 8 in
  let tiny := tx_of (JNumber (of_ratio false 1 (2 ^ 57))) in
  let l3 := [tx_of (JNumber (of_ratio false (2 ^ 52 - 1) (2 ^ 55)));
             tiny; tiny; tiny; tiny] in
  (sums_in_binary64 s1 e1 l1 = true
   /\ returned (performReconciliation (statement (Some s1) (Some e1) (Some l1)))
      = Some {| calculatedEndingBalance := Some pos_zero;
                difference := Some (of_Z 1);
                matches := false |})
  /\ (sums_exactly s2 e2 l2 = true
      /\ returned (performReconciliation (statement (Some s2) (Some e2) (Some l2)))
         = Some {| calculatedEndingBalance := Some pos_zero;
                   difference := Some (of_Z 2);
                   matches := false |})
  /\ (sums_exactly s3 e3 l3 = true
      /\ returned (performReconciliation (statement (Some s3) (Some e3) (Some l3)))
         = Some {| calculatedEndingBalance := Some (cents 12);
                   difference := Some (cents 1);
                   matches := true |}).
Proof. repeat split; vm_compute; reflexivity. Qed.

(** C5, amended. For a statement in decimal amounts with two fractional
    digits, each read as the nearest binary64 number, whose starting
    balance is at most one billion in magnitude and whose at most 1000
    transactions have magnitudes adding up to at most one billion: when
    the amounts, every one a number, sum exactly to the ending balance
    minus the starting balance, the difference is [0] and [matches] is
    true.  The amounts are given in cents. *)
Theorem C5_exact_sum_matches data (zs ze : Z) (l : list Transaction) (zl : list Z) :
  startingBalance data = Some (cents zs) ->
  endingBalance data = Some (cents ze) ->
  transactions data = Some l ->
  map amount l = map (fun z => JNumber (cents z)) zl ->
  total zl = ze - zs ->
  Z.abs zs <= 10 ^ 11 -> turnover zl <= 10 ^ 11 ->
  (List.length zl <= 1000)%nat ->
  exists r, returned (performReconciliation data) = Some r
    /\ difference r = Some pos_zero /\ matches r = true.
Proof.
  intros Hs He Hl Hmap Hsum Hzs Hturn Hlen.
  exists (reconciled (cents zs) (cents ze) l).
  split; [apply returned_reconciled; assumption |].
  unfold reconciled. cbn [difference matches].
  rewrite (decimal_statement_reconciles zs ze l zl Hmap ltac:(lia) Hzs Hturn Hlen).
  split; reflexivity.
Qed.

Lemma C5_witness :
  exists r,
    returned (performReconciliation
                (statement (Some (cents 0)) (Some (cents 30))
                   (Some [tx_of (JNumber (cents 10)); tx_of (JNumber (cents 20))])))
    = Some r
    /\ difference r = Some pos_zero /\ matches r = true.
Proof.
  apply (C5_exact_sum_matches
           (statement (Some (cents 0)) (Some (cents 30))
              (Some [tx_of (JNumber (cents 10)); tx_of (JNumber (cents 20))]))
           0 30 [tx_of (JNumber (cents 10)); tx_of (JNumber (cents 20))] [10; 20]);
    try reflexivity; cbn; lia.
Defined.







(** C8. The reconciliation is total: on every input it returns a result;
    neither the [TypeError] of a [null] dereference nor the [RangeError] of
    [toFixed] is ever thrown. *)
Theorem C8_never_throws data :
  exists r console, performReconciliation data = (inr r, console).
Proof.
  destruct (startingBalance data) as [s |] eqn:Hs;
    [| eexists _, _; apply run_insufficient; auto].
  destruct (endingBalance data) as [e |] eqn:He;
    [| eexists _, _; apply run_insufficient; auto].
  destruct (transactions data) as [l |] eqn:Hl;
    [| eexists _, _; apply run_insufficient; auto].
  eexists _, _. apply (run_reconciled data s e l); assumption.
Qed.

(** C9. In every result [calculatedEndingBalance] is absent exactly when
    [difference] is absent, and then [matches] is false. *)
Theorem C9_result_shape data :
  exists r, returned (performReconciliation data) = Some r
    /\ (calculatedEndingBalance r = None <-> difference r = None)
    /\ (calculatedEndingBalance r = None -> matches r = false)
    /\ (difference r = None -> matches r = false).
Proof.
  destruct (returned_cases data) as [H | (s & e & l & _ & _ & _ & H)];
    rewrite H; eexists; (split; [reflexivity |]); cbn; intuition discriminate.
Qed.

(** C10. With both balances and the transaction list present, the returned
    difference is a value rounded to 2 decimal places, and [matches] is true
    exactly when that difference equals -0.01, 0 or 0.01: after rounding the
    tolerance of 1.5 cents is a tolerance of one cent. *)
Theorem C10_tolerance_is_one_cent data s e l :
  startingBalance data = Some s -> endingBalance data = Some e ->
  transactions data = Some l ->
  valid s = true -> valid e = true -> Forall wf_amount l ->
  exists r diff,
    returned (performReconciliation data) = Some r
    /\ difference r = Some diff
    /\ diff = round2 (sub (round2 e) (round2 (add s (sumOfTransactions l))))
    /\ (matches r = true
        <-> eq diff (cents (-1)) = true \/ eq diff pos_zero = true
            \/ eq diff (cents 1) = true).
Proof.
  intros Hs He Hl Vs Ve Vl.
  exists (reconciled s e l), (round2 (sub (round2 e) (round2 (add s (sumOfTransactions l))))).
  split; [apply returned_reconciled; assumption |].
  split; [reflexivity |]. split; [reflexivity |].
  unfold reconciled. cbn [matches].
  rewrite tolerance_is_one_cent by (apply difference_is_round2_value; assumption).
  unfold at_most_one_cent. rewrite !orb_true_iff. tauto.
Qed.

Lemma C10_witness :
  exists r diff,
    returned (performReconciliation example_one_cent) = Some r
    /\ difference r = Some diff
    /\ diff = round2 (sub (round2 (cents 155000))
                        (round2 (add (cents 120000)
                           (sumOfTransactions
                              [tx_of (JNumber (cents 50000));
                               tx_of (JNumber (cents (-15001)))]))))
    /\ (matches r = true
        <-> eq diff (cents (-1)) = true \/ eq diff pos_zero = true
            \/ eq diff (cents 1) = true).
Proof.
  apply (C10_tolerance_is_one_cent example_one_cent); try reflexivity.
  repeat constructor.
Defined.

(** * Strings and objects *)

Lemma str_eqb_eq (a b : jsstring) : str_eqb a b = true <-> a = b.
Proof.
  revert b. induction a as [| x a IH]; intros [| y b]; cbn [str_eqb];
    split; try easy.
  - intros H. apply andb_prop in H. destruct H as [Hx Hab].
    apply N.eqb_eq in Hx. apply IH in Hab. congruence.
  - intros H. injection H as -> ->. rewrite N.eqb_refl. cbn. apply IH. reflexivity.
Qed.

Lemma str_eqb_refl (a : jsstring) : str_eqb a a = true.
Proof. apply str_eqb_eq. reflexivity. Qed.

Lemma str_eqb_neq (a b : jsstring) : a <> b -> str_eqb a b = false.
Proof.
  intros H. destruct (str_eqb a b) eqn:E; [| reflexivity].
  apply str_eqb_eq in E. contradiction.
Qed.

Lemma trim_start_length (s : jsstring) :
  (List.length (trim_start s) <= List.length s)%nat.
Proof.
  induction s as [| c s IH]; cbn [trim_start List.length]; [lia |].
  destruct (is_white_space c); cbn [List.length]; lia.
Qed.

Lemma trim_length (s : jsstring) : (List.length (trim s) <= List.length s)%nat.
Proof.
  unfold trim. rewrite length_rev.
  pose proof (trim_start_length (rev (trim_start s))) as H1.
  rewrite length_rev in H1. pose proof (trim_start_length s). lia.
Qed.

(** What [trim_start] leaves does not begin with white space. *)
Lemma trim_start_head (s : jsstring) c rest :
  trim_start s = c :: rest -> is_white_space c = false.
Proof.
  induction s as [| d s IH]; cbn [trim_start]; [discriminate |].
  destruct (is_white_space d) eqn:Hd; [exact IH |].
  intros H. injection H as <- _. exact Hd.
Qed.

Lemma trim_start_all_space (s : jsstring) :
  forallb is_white_space s = true -> trim_start s = [].
Proof.
  induction s as [| c s IH]; cbn [forallb trim_start]; [reflexivity |].
  intros H. apply andb_prop in H. destruct H as [-> H]. apply IH, H.
Qed.

Lemma trim_all_space (s : jsstring) :
  forallb is_white_space s = true -> trim s = [].
Proof.
  intros H. unfold trim. rewrite (trim_start_all_space s H). reflexivity.
Qed.

Lemma snippet_short (n : nat) (s : jsstring) :
  (List.length s <= n)%nat -> snippet n s = s.
Proof.
  intros H. unfold snippet. rewrite firstn_all2 by exact H.
  destruct (Nat.ltb_spec n (List.length s)); [lia | apply app_nil_r].
Qed.

Lemma snippet_long (n : nat) (s : jsstring) :
  (n < List.length s)%nat -> snippet n s = firstn n s ++ lit "...".
Proof.
  intros H. unfold snippet.
  destruct (Nat.ltb_spec n (List.length s)); [reflexivity | lia].
Qed.

Lemma snippet_length (n : nat) (s : jsstring) :
  (List.length (snippet n s) <= n + 3)%nat.
Proof.
  unfold snippet. rewrite length_app, length_firstn.
  destruct (Nat.ltb n (List.length s)); cbn [List.length lit]; cbn; lia.
Qed.

Lemma get_set_same (o : object) k v :
  get_property (set_property o k v) k = Some v.
Proof.
  induction o as [| [k' v'] o IH]; cbn [set_property get_property].
  - rewrite str_eqb_refl. reflexivity.
  - destruct (str_eqb k' k) eqn:E; cbn [get_property]; rewrite E; [reflexivity | exact IH].
Qed.

Lemma get_set_other (o : object) k v k' :
  str_eqb k k' = false ->
  get_property (set_property o k v) k' = get_property o k'.
Proof.
  intros Hk. induction o as [| [k0 v0] o IH]; cbn [set_property get_property].
  - rewrite Hk. reflexivity.
  - destruct (str_eqb k0 k) eqn:E; cbn [get_property].
    + apply str_eqb_eq in E. subst k0. rewrite Hk. reflexivity.
    + rewrite IH. reflexivity.
Qed.

Lemma get_set (o : object) k v k' :
  get_property (set_property o k v) k'
  = if str_eqb k k' then Some v else get_property o k'.
Proof.
  destruct (str_eqb k k') eqn:E.
  - apply str_eqb_eq in E. subst k'. apply get_set_same.
  - apply get_set_other, E.
Qed.

(** Writing to a property that holds the value already changes nothing. *)
Lemma set_same_value (o : object) k v :
  get_property o k = Some v -> set_property o k v = o.
Proof.
  induction o as [| [k' v'] o IH]; cbn [set_property get_property]; [discriminate |].
  destruct (str_eqb k' k); intros H; [congruence | rewrite IH by exact H; reflexivity].
Qed.

(** * The defaults of getDetailsFromLlm *)

Lemma default_field_get (o : object) (f k : jsstring) :
  get_property (default_field o f) k
  = match get_property o k with
    | Some v => Some v
    | None => if str_eqb f k then Some (default_value f) else None
    end.
Proof.
  unfold default_field, has_property, default_value.
  destruct (get_property o f) as [vf |] eqn:Hf; cbn [negb].
  - destruct (get_property o k) eqn:Hk; [reflexivity |].
    destruct (str_eqb f k) eqn:E; [| reflexivity].
    apply str_eqb_eq in E. congruence.
  - destruct (str_eqb f (lit "transactions")) eqn:Et.
    + apply str_eqb_eq in Et. subst f. rewrite get_set.
      destruct (str_eqb (lit "transactions") k) eqn:E.
      * apply str_eqb_eq in E. subst k. rewrite Hf. reflexivity.
      * destruct (get_property o k); reflexivity.
    + rewrite get_set. destruct (str_eqb f k) eqn:E.
      * apply str_eqb_eq in E. subst k. rewrite Hf. reflexivity.
      * destruct (get_property o k); reflexivity.
Qed.

Lemma fold_defaults_get (fs : list jsstring) : forall (o : object) (k : jsstring),
  get_property (fold_left default_field fs o) k
  = match get_property o k with
    | Some v => Some v
    | None => if existsb (fun f => str_eqb f k) fs
              then Some (default_value k) else None
    end.
Proof.
  induction fs as [| f fs IH]; intros o k; cbn [fold_left existsb].
  - destruct (get_property o k); reflexivity.
  - rewrite IH, default_field_get.
    destruct (get_property o k); [reflexivity |].
    destruct (str_eqb f k) eqn:E; [| reflexivity].
    apply str_eqb_eq in E. subst k. reflexivity.
Qed.

Lemma default_transactions_get (o : object) (k : jsstring) :
  get_property (default_transactions o) k
  = if str_eqb (lit "transactions") k
       && negb (array_or_falsy (get_property o (lit "transactions")))
    then Some (JsonArray []) else get_property o k.
Proof.
  unfold default_transactions, array_or_falsy.
  destruct (truthy (get_property o (lit "transactions"))),
    (isArray (get_property o (lit "transactions")));
    cbn [andb orb negb]; rewrite ?andb_false_r; try reflexivity.
  rewrite get_set, andb_true_r. reflexivity.
Qed.

(** A field that is there is left alone by the loop. *)
Lemma default_field_present (o : object) (f : jsstring) :
  has_property o f = true -> default_field o f = o.
Proof. unfold default_field. intros ->. reflexivity. Qed.

Lemma has_default_field (o : object) (f k : jsstring) :
  has_property o k = true -> has_property (default_field o f) k = true.
Proof.
  unfold has_property. rewrite default_field_get.
  destruct (get_property o k); [reflexivity | discriminate].
Qed.

Lemma fold_defaults_present (fs : list jsstring) : forall o : object,
  forallb (has_property o) fs = true -> fold_left default_field fs o = o.
Proof.
  induction fs as [| f fs IH]; intros o H; cbn [fold_left forallb] in *; [reflexivity |].
  apply andb_prop in H. destruct H as [Hf Hfs].
  rewrite (default_field_present o f Hf). apply IH, Hfs.
Qed.

Lemma default_transactions_fixed (o : object) :
  array_or_falsy (get_property o (lit "transactions")) = true ->
  default_transactions o = o.
Proof.
  unfold default_transactions, array_or_falsy. intros H.
  destruct (truthy (get_property o (lit "transactions"))),
    (isArray (get_property o (lit "transactions"))); try reflexivity.
  discriminate H.
Qed.

Lemma fill_defaults_get (o : object) (k : jsstring) :
  get_property (fill_defaults o) k
  = match get_property o k with
    | Some v =>
        if str_eqb (lit "transactions") k && negb (array_or_falsy (Some v))
        then Some (JsonArray []) else Some v
    | None =>
        if existsb (fun f => str_eqb f k) requiredFields
        then Some (default_value k) else None
    end.
Proof.
  unfold fill_defaults. rewrite default_transactions_get, !fold_defaults_get.
  destruct (str_eqb (lit "transactions") k) eqn:E; cbn [andb].
  - apply str_eqb_eq in E. subst k.
    destruct (get_property o (lit "transactions")) as [v |]; [reflexivity |].
    reflexivity.
  - destruct (get_property o k); reflexivity.
Qed.

Lemma fill_defaults_required (o : object) :
  forallb (has_property (fill_defaults o)) requiredFields = true.
Proof.
  assert (H : forall k, existsb (fun f => str_eqb f k) requiredFields = true ->
                has_property (fill_defaults o) k = true).
  { intros k Hk. unfold has_property. rewrite fill_defaults_get, Hk.
    destruct (get_property o k) as [v |]; [| reflexivity].
    destruct (str_eqb (lit "transactions") k && negb (array_or_falsy (Some v)));
      reflexivity. }
  cbn [forallb requiredFields]. rewrite !H by reflexivity. reflexivity.
Qed.

Lemma fill_defaults_transactions (o : object) :
  array_or_falsy (get_property (fill_defaults o) (lit "transactions")) = true.
Proof.
  rewrite fill_defaults_get.
  destruct (get_property o (lit "transactions")) as [v |]; [| reflexivity].
  cbn [str_eqb lit]. rewrite str_eqb_refl. cbn [andb].
  destruct (array_or_falsy (Some v)) eqn:E; [exact E | reflexivity].
Qed.

(** * performReconciliation on a parsed response *)

Lemma builtin_toFixed (x : number) : builtin (toFixed x 2) = inr (toFixed2 x).
Proof. rewrite toFixed_2. reflexivity. Qed.

Lemma filter_valid_no_null (l : list json) :
  no_null_element l = true -> returns (filter_valid l) = true.
Proof.
  induction l as [| tx l IH]; cbn [no_null_element forallb filter_valid];
    [reflexivity |].
  intros H. apply andb_prop in H. destruct H as [Htx Hl].
  specialize (IH Hl). destruct (filter_valid l) as [e | kept]; [discriminate IH |].
  destruct tx; try discriminate Htx; reflexivity.
Qed.

Lemma filter_valid_null (l : list json) :
  no_null_element l = false -> filter_valid l = inl AmountOfNull.
Proof.
  induction l as [| tx l IH]; cbn [no_null_element forallb filter_valid];
    [discriminate |].
  intros H. destruct tx; cbn [andb] in H; try reflexivity;
    cbn [amount_of bindR]; rewrite (IH H); reflexivity.
Qed.

Lemma returned_reconciliation_of (data : ExtractedData) :
  returned (performReconciliation data) = Some (reconciliation_of data).
Proof.
  unfold reconciliation_of.
  destruct (startingBalance data) as [s |] eqn:Hs;
    [| apply returned_insufficient; auto].
  destruct (endingBalance data) as [e |] eqn:He;
    [| apply returned_insufficient; auto].
  destruct (transactions data) as [l |] eqn:Hl;
    [| apply returned_insufficient; auto].
  apply returned_reconciled; assumption.
Qed.

Lemma amount_of_typed (t : Transaction) :
  amount_of (json_of_transaction t) = inr (json_of_amount (amount t)).
Proof.
  unfold json_of_transaction, amount_of. destruct (amount t); reflexivity.
Qed.

Lemma is_valid_number_typed (t : Transaction) :
  is_valid_number (json_of_amount (amount t)) = valid_amount t.
Proof. unfold valid_amount. destruct (amount t); reflexivity. Qed.

Lemma amount_number_typed (t : Transaction) :
  amount_number (json_of_transaction t) = number_value (amount t).
Proof.
  unfold json_of_transaction, amount_number. destruct (amount t); reflexivity.
Qed.

Lemma filter_valid_typed (l : list Transaction) :
  filter_valid (map json_of_transaction l)
  = inr (map json_of_transaction (filter valid_amount l)).
Proof.
  induction l as [| t l IH]; [reflexivity |].
  cbn [map filter_valid filter]. rewrite amount_of_typed, IH. cbn [bindR].
  rewrite is_valid_number_typed. destruct (valid_amount t); reflexivity.
Qed.

Lemma sum_typed (l : list Transaction) : forall a : number,
  fold_left (fun sum tx => add sum (amount_number tx)) (map json_of_transaction l) a
  = fold_left add_amount l a.
Proof.
  induction l as [| t l IH]; intros a; [reflexivity |].
  cbn [map fold_left]. rewrite IH, amount_number_typed. reflexivity.
Qed.

Lemma performReconciliationJson_typed (data : ExtractedData) :
  performReconciliationJson (json_of_data data) = inr (reconciliation_of data).
Proof.
  unfold performReconciliationJson, reconciliation_of.
  change (get_property (json_of_data data) (lit "startingBalance"))
    with (Some (json_of_number (startingBalance data))).
  change (get_property (json_of_data data) (lit "endingBalance"))
    with (Some (json_of_number (endingBalance data))).
  change (get_property (json_of_data data) (lit "transactions"))
    with (Some match transactions data with
               | Some l => JsonArray (map json_of_transaction l)
               | None => JsonNull
               end).
  destruct (startingBalance data) as [s |]; [| reflexivity].
  destruct (endingBalance data) as [e |]; [| reflexivity].
  destruct (transactions data) as [l |]; [| reflexivity].
  cbn [json_of_number strict_null truthy orb negb array_of bindR].
  rewrite filter_valid_typed. cbn [bindR plus_sum ending_number].
  rewrite sum_typed.
  repeat (rewrite builtin_toFixed; cbn [bindR]). reflexivity.
Qed.

Lemma performReconciliationJson_insufficient (data : object) :
  insufficient_data data = true ->
  performReconciliationJson data = inr insufficient.
Proof.
  unfold performReconciliationJson, insufficient_data. intros ->. reflexivity.
Qed.

(** Past its guard the function returns exactly on [reconcilable] data. *)
Lemma performReconciliationJson_returns (data : object) :
  returns (performReconciliationJson data)
  = insufficient_data data || reconcilable data.
Proof.
  destruct (insufficient_data data) eqn:Hguard.
  - rewrite (performReconciliationJson_insufficient data Hguard). reflexivity.
  - unfold performReconciliationJson. unfold insufficient_data in Hguard.
    rewrite Hguard. unfold reconcilable. cbn [orb].
    destruct (get_property data (lit "transactions")) as [[| b | x | s | l | o] |];
      try reflexivity.
    cbn [array_of bindR].
    destruct (no_null_element l) eqn:Hl;
      [| rewrite (filter_valid_null l Hl);
         destruct (get_property data (lit "endingBalance")) as [[| | | | |] |];
         reflexivity].
    pose proof (filter_valid_no_null l Hl) as Hret.
    destruct (filter_valid l) as [e | kept]; [discriminate Hret |].
    cbn [bindR andb].
    destruct (get_property data (lit "startingBalance")) as [[| b | x | s | l' | o] |];
      cbn [plus_sum bindR adds_as_number];
      try (destruct (get_property data (lit "endingBalance")) as [[| | | | |] |];
           reflexivity);
      rewrite builtin_toFixed; cbn [bindR];
      destruct (get_property data (lit "endingBalance")) as [[| b' | y | s' | l'' | o'] |];
      cbn [ending_number bindR]; try reflexivity;
      repeat (rewrite builtin_toFixed; cbn [bindR]); reflexivity.
Qed.

(** On an object whose [transactions] is an array or converts to false,
    [data.transactions.filter] is always there. *)
Lemma performReconciliationJson_errors (data : object) :
  array_or_falsy (get_property data (lit "transactions")) = true ->
  match performReconciliationJson data with
  | inl AmountOfNull | inl SumNotNumber | inl EndingNotNumber | inr _ => True
  | inl _ => False
  end.
Proof.
  intros Harr. unfold performReconciliationJson.
  destruct (strict_null (get_property data (lit "startingBalance"))
            || strict_null (get_property data (lit "endingBalance"))
            || negb (truthy (get_property data (lit "transactions")))) eqn:Hguard;
    [exact I |].
  apply orb_false_elim in Hguard. destruct Hguard as [_ Htruthy].
  apply negb_false_iff in Htruthy.
  unfold array_or_falsy in Harr. rewrite Htruthy in Harr.
  destruct (get_property data (lit "transactions")) as [[| b | x | s | l | o] |];
    try discriminate Harr.
  cbn [array_of bindR].
  destruct (filter_valid l) as [e | kept] eqn:Hf.
  - destruct (no_null_element l) eqn:Hl.
    + pose proof (filter_valid_no_null l Hl) as Hret. rewrite Hf in Hret.
      discriminate Hret.
    + rewrite (filter_valid_null l Hl) in Hf. injection Hf as <-. exact I.
  - cbn [bindR].
    destruct (get_property data (lit "startingBalance")) as [[| b | x | s | l' | o] |];
      cbn [plus_sum bindR]; try exact I;
      rewrite builtin_toFixed; cbn [bindR];
      destruct (get_property data (lit "endingBalance")) as [[| b' | y | s' | l'' | o'] |];
      cbn [ending_number bindR]; try exact I;
      repeat (rewrite builtin_toFixed; cbn [bindR]); exact I.
Qed.

(** * getDetailsFromLlm *)

Lemma fill_defaults_fixed (o : object) :
  forallb (has_property o) requiredFields = true ->
  array_or_falsy (get_property o (lit "transactions")) = true ->
  fill_defaults o = o.
Proof.
  intros Hreq Harr. unfold fill_defaults.
  rewrite (fold_defaults_present requiredFields o Hreq).
  apply default_transactions_fixed, Harr.
Qed.

Lemma fill_defaults_typed (data : ExtractedData) :
  fill_defaults (json_of_data data) = json_of_data data.
Proof.
  apply fill_defaults_fixed; [reflexivity |].
  change (get_property (json_of_data data) (lit "transactions"))
    with (Some match transactions data with
               | Some l => JsonArray (map json_of_transaction l)
               | None => JsonNull
               end).
  destruct (transactions data); reflexivity.
Qed.

Lemma empty_extraction_insufficient (name : json) :
  performReconciliationJson (empty_extraction name) = inr insufficient.
Proof. reflexivity. Qed.

(** The text [POST] passes on is never blank. *)
Lemma too_short_blank (text : jsstring) :
  too_short text = false -> blank text = false.
Proof.
  unfold too_short, blank. destruct text as [| c text]; [discriminate |].
  destruct (trim (c :: text)) as [| d rest]; [discriminate | reflexivity].
Qed.

Lemma too_short_length (text : jsstring) :
  too_short text = Nat.ltb (List.length (trim text)) 50.
Proof. destruct text; reflexivity. Qed.

Lemma startsWith_app (p rest : jsstring) : startsWith (p ++ rest) p = true.
Proof.
  unfold startsWith. rewrite firstn_app, Nat.sub_diag, firstn_all.
  cbn [firstn]. rewrite app_nil_r. apply str_eqb_refl.
Qed.

Lemma llm_failed_message (message : jsstring) :
  response_message (Some (llm_failed message))
  = inr (lit "PDF processed, but there was an issue with LLM data extraction.").
Proof.
  unfold llm_failed, response_message.
  change (lit "Error: Gemini LLM Failed (Details: ")
    with (lit "Error: Gemini LLM Failed" ++ lit " (Details: ").
  rewrite <- app_assoc, startsWith_app. reflexivity.
Qed.

Section EngineFacts.

Variable engine_message : type_error -> jsstring.

Lemma getDetailsFromLlm_required apiKey text llm :
  forallb (has_property (getDetailsFromLlm engine_message apiKey text llm))
          requiredFields = true.
Proof.
  unfold getDetailsFromLlm.
  destruct (key_missing apiKey); [reflexivity |].
  destruct (blank text); [reflexivity |].
  destruct llm as [message | | v]; try reflexivity.
  destruct (own_properties v) as [parsedJson |]; [| reflexivity].
  apply fill_defaults_required.
Qed.

Lemma getDetailsFromLlm_transactions apiKey text llm :
  array_or_falsy
    (get_property (getDetailsFromLlm engine_message apiKey text llm)
                  (lit "transactions")) = true.
Proof.
  unfold getDetailsFromLlm.
  destruct (key_missing apiKey); [reflexivity |].
  destruct (blank text); [reflexivity |].
  destruct llm as [message | | v]; try reflexivity.
  destruct (own_properties v) as [parsedJson |]; [| reflexivity].
  apply fill_defaults_transactions.
Qed.

Lemma getDetailsFromLlm_parsed apiKey text (parsedJson : object) :
  key_missing apiKey = false -> too_short text = false ->
  getDetailsFromLlm engine_message apiKey text (LlmParsed (JsonObject parsedJson))
  = fill_defaults parsedJson.
Proof.
  intros Hkey Htext. unfold getDetailsFromLlm.
  rewrite Hkey, (too_short_blank text Htext). reflexivity.
Qed.

End EngineFacts.

Lemma performReconciliationJson_numbers (data : object) s e (txs : list Transaction) :
  get_property data (lit "startingBalance") = Some (JsonNumber s) ->
  get_property data (lit "endingBalance") = Some (JsonNumber e) ->
  get_property data (lit "transactions")
  = Some (JsonArray (map json_of_transaction txs)) ->
  performReconciliationJson data = inr (reconciled s e txs).
Proof.
  intros Hs He Ht. unfold performReconciliationJson. rewrite Hs, He, Ht.
  cbn [strict_null truthy orb negb array_of bindR].
  rewrite filter_valid_typed. cbn [bindR plus_sum ending_number].
  rewrite sum_typed.
  repeat (rewrite builtin_toFixed; cbn [bindR]). reflexivity.
Qed.

Lemma fill_defaults_null (o : object) (k : jsstring) :
  existsb (fun f => str_eqb f k) requiredFields = true ->
  str_eqb (lit "transactions") k = false ->
  null_or_missing (get_property o k) = true ->
  get_property (fill_defaults o) k = Some JsonNull.
Proof.
  intros Hreq Hk Hnull. rewrite fill_defaults_get, Hreq, Hk.
  unfold default_value.
  destruct (get_property o k) as [[| | | | |] |]; try discriminate Hnull;
    [reflexivity |].
  destruct (str_eqb k (lit "transactions")) eqn:E; [| reflexivity].
  apply str_eqb_eq in E. subst k. discriminate Hk.
Qed.

Lemma fill_defaults_insufficient (o : object) :
  null_or_missing (get_property o (lit "startingBalance"))
  || null_or_missing (get_property o (lit "endingBalance"))
  || (has_property o (lit "transactions")
      && negb (truthy (get_property o (lit "transactions")))) = true ->
  insufficient_data (fill_defaults o) = true.
Proof.
  intros H. unfold insufficient_data.
  apply orb_prop in H. destruct H as [H | H];
    [apply orb_prop in H; destruct H as [H | H] |].
  - rewrite (fill_defaults_null o (lit "startingBalance")) by (reflexivity || exact H).
    reflexivity.
  - rewrite (fill_defaults_null o (lit "endingBalance")) by (reflexivity || exact H).
    apply orb_true_iff. left. apply orb_true_r.
  - apply andb_prop in H. destruct H as [Hhas Hfalsy].
    unfold has_property in Hhas.
    destruct (get_property o (lit "transactions")) as [v |] eqn:Hget;
      [| discriminate Hhas].
    rewrite (fill_defaults_get o (lit "transactions")), Hget.
    unfold array_or_falsy. rewrite Hfalsy, orb_true_r, andb_false_r, Hfalsy.
    apply orb_true_r.
Qed.

(** ** Properties of the defaults and of the extraction *)

(** X1. A property the parsed answer has keeps its value through the
    defaulting of [getDetailsFromLlm], except [transactions] when it
    converts to true and is not an array. *)
Theorem X1_defaults_keep_present_fields (o : object) (k : jsstring) (v : json) :
  get_property o k = Some v ->
  k <> lit "transactions" \/ array_or_falsy (Some v) = true ->
  get_property (fill_defaults o) k = Some v.
Proof.
  intros Hget Hk. rewrite fill_defaults_get, Hget.
  destruct Hk as [Hk | Harr].
  - rewrite (str_eqb_neq (lit "transactions") k) by congruence. reflexivity.
  - rewrite Harr, andb_false_r. reflexivity.
Qed.

Lemma X1_witness :
  get_property (fill_defaults [(lit "endingBalance", JsonString (lit "12.5"))])
               (lit "endingBalance")
  = Some (JsonString (lit "12.5")).
Proof.
  apply (X1_defaults_keep_present_fields
           [(lit "endingBalance", JsonString (lit "12.5"))]
           (lit "endingBalance") (JsonString (lit "12.5"))).
  - reflexivity.
  - left. discriminate.
Defined.

(** X2. A property the parsed answer lacks is [null] afterwards when it is
    one of the five required scalar fields, the empty array when it is
    [transactions], and still missing otherwise. *)
Theorem X2_defaults_fill_missing_fields (o : object) (k : jsstring) :
  get_property o k = None ->
  get_property (fill_defaults o) k
  = if existsb (fun f => str_eqb f k) requiredFields
    then Some (if str_eqb k (lit "transactions") then JsonArray [] else JsonNull)
    else None.
Proof.
  intros Hget. rewrite fill_defaults_get, Hget. reflexivity.
Qed.

Lemma X2_witness :
  get_property (fill_defaults []) (lit "transactions") = Some (JsonArray [])
  /\ get_property (fill_defaults []) (lit "statementDate") = Some JsonNull
  /\ get_property (fill_defaults []) (lit "currency") = None.
Proof.
  split; [| split].
  - apply (X2_defaults_fill_missing_fields [] (lit "transactions")). reflexivity.
  - apply (X2_defaults_fill_missing_fields [] (lit "statementDate")). reflexivity.
  - apply (X2_defaults_fill_missing_fields [] (lit "currency")). reflexivity.
Defined.

(** X3. The defaulting is idempotent: run on its own result it changes
    nothing, not even the order of the properties. *)
Theorem X3_defaults_idempotent (o : object) :
  fill_defaults (fill_defaults o) = fill_defaults o.
Proof.
  apply fill_defaults_fixed;
    [apply fill_defaults_required | apply fill_defaults_transactions].
Qed.

(** X4. Whatever the key, the text and the answer of the model are,
    the object [getDetailsFromLlm] returns has all six required fields,
    and its [transactions] is an array or converts to false. *)
Theorem X4_extraction_shape (engine_message : type_error -> jsstring)
    (apiKey : option jsstring) (text : jsstring) (llm : llm_outcome) :
  let data := getDetailsFromLlm engine_message apiKey text llm in
  forallb (has_property data) requiredFields = true
  /\ array_or_falsy (get_property data (lit "transactions")) = true.
Proof.
  split;
    [apply getDetailsFromLlm_required | apply getDetailsFromLlm_transactions].
Qed.

(** X5. Without an API key, on blank text, or when the call of the model
    throws, answers nothing or answers a primitive, [getDetailsFromLlm]
    returns the empty extraction, which [performReconciliation] answers
    with the result for insufficient data. *)
Theorem X5_failed_extraction_is_insufficient
    (engine_message : type_error -> jsstring)
    (apiKey : option jsstring) (text : jsstring) (llm : llm_outcome) :
  key_missing apiKey = true \/ blank text = true \/ parsed_object llm = None ->
  exists name,
    getDetailsFromLlm engine_message apiKey text llm = empty_extraction name
    /\ performReconciliationJson
         (getDetailsFromLlm engine_message apiKey text llm)
       = inr {| calculatedEndingBalance := None; difference := None;
                matches := false |}.
Proof.
  intros H. unfold getDetailsFromLlm.
  destruct (key_missing apiKey); [eexists; split; reflexivity |].
  destruct (blank text); [eexists; split; reflexivity |].
  destruct H as [H | [H | H]]; try discriminate H.
  destruct llm as [message | | v]; try (eexists; split; reflexivity).
  cbn [parsed_object] in H. rewrite H. eexists; split; reflexivity.
Qed.

Lemma X5_witness :
  exists name,
    getDetailsFromLlm (fun _ => []) (Some (lit "key")) (lit "statement") LlmEmpty
    = empty_extraction name
    /\ performReconciliationJson
         (getDetailsFromLlm (fun _ => []) (Some (lit "key")) (lit "statement") LlmEmpty)
       = inr {| calculatedEndingBalance := None; difference := None;
                matches := false |}.
Proof.
  apply (X5_failed_extraction_is_insufficient
           (fun _ => []) (Some (lit "key")) (lit "statement") LlmEmpty).
  right. right. reflexivity.
Defined.

(** ** Properties of performReconciliation on a parsed response *)

(** X6. On the object of a typed [ExtractedData] the function on parsed
    responses returns, and returns the result of the typed
    [performReconciliation]. *)
Theorem X6_typed_data_agree (data : ExtractedData) :
  exists r : ReconciliationResult,
    returned (performReconciliation data) = Some r
    /\ performReconciliationJson (json_of_data data) = inr r.
Proof.
  exists (reconciliation_of data). split;
    [apply returned_reconciliation_of | apply performReconciliationJson_typed].
Qed.

(** X7. On an arbitrary parsed object [performReconciliation] returns a
    result exactly when its guard holds, or [transactions] is an array
    without [null] element, [startingBalance] is not a string, an array or
    an object, and [endingBalance] is a number; otherwise it throws. *)
Theorem X7_returns_iff_well_typed (data : object) :
  (exists r, performReconciliationJson data = inr r)
  <-> insufficient_data data = true \/ reconcilable data = true.
Proof.
  pose proof (performReconciliationJson_returns data) as H.
  rewrite <- orb_true_iff, <- H.
  destruct (performReconciliationJson data) as [e | r]; cbn [returns]; split.
  - intros [r Hr]. discriminate Hr.
  - discriminate.
  - reflexivity.
  - intros _. exists r. reflexivity.
Qed.

(** X8. On what [getDetailsFromLlm] returns, [data.transactions.filter]
    never fails: the only errors left are a [null] transaction, a
    starting balance that does not add as a number and an ending balance
    that is not a number. *)
Theorem X8_extraction_can_be_filtered (engine_message : type_error -> jsstring)
    (apiKey : option jsstring) (text : jsstring) (llm : llm_outcome) :
  match performReconciliationJson
          (getDetailsFromLlm engine_message apiKey text llm) with
  | inl AmountOfNull | inl SumNotNumber | inl EndingNotNumber | inr _ => True
  | inl _ => False
  end.
Proof.
  apply performReconciliationJson_errors, getDetailsFromLlm_transactions.
Qed.

(** X9. An answer with both balances and no [transactions] property is
    reconciled as a statement without transactions: the default for the
    missing field is the empty array, which passes the guard. *)
Theorem X9_missing_transactions_reconciled
    (engine_message : type_error -> jsstring)
    (apiKey : option jsstring) (text : jsstring) (o : object) (s e : number) :
  key_missing apiKey = false -> too_short text = false ->
  get_property o (lit "startingBalance") = Some (JsonNumber s) ->
  get_property o (lit "endingBalance") = Some (JsonNumber e) ->
  get_property o (lit "transactions") = None ->
  performReconciliationJson
    (getDetailsFromLlm engine_message apiKey text (LlmParsed (JsonObject o)))
  = inr (reconciled s e []).
Proof.
  intros Hkey Htext Hs He Ht.
  rewrite (getDetailsFromLlm_parsed engine_message apiKey text o Hkey Htext).
  apply (performReconciliationJson_numbers (fill_defaults o) s e []);
    rewrite fill_defaults_get.
  - rewrite Hs. reflexivity.
  - rewrite He. reflexivity.
  - rewrite Ht. reflexivity.
Qed.

Lemma X9_witness :
  performReconciliationJson
    (getDetailsFromLlm (fun _ => []) (Some (lit "key")) (repeat 65%N 60)
       (LlmParsed (JsonObject [(lit "startingBalance", JsonNumber (of_Z 1200));
                               (lit "endingBalance", JsonNumber (of_Z 1550))])))
  = inr (reconciled (of_Z 1200) (of_Z 1550) []).
Proof.
  apply (X9_missing_transactions_reconciled (fun _ => []) (Some (lit "key"))
           (repeat 65%N 60)
           [(lit "startingBalance", JsonNumber (of_Z 1200));
            (lit "endingBalance", JsonNumber (of_Z 1550))]
           (of_Z 1200) (of_Z 1550)); reflexivity.
Defined.

(** X10. An answer in which a balance is [null] or missing, or in which
    [transactions] is there and converts to false, gets the result for
    insufficient data, whatever else it holds. *)
Theorem X10_incomplete_answer_is_insufficient
    (engine_message : type_error -> jsstring)
    (apiKey : option jsstring) (text : jsstring) (o : object) :
  key_missing apiKey = false -> too_short text = false ->
  null_or_missing (get_property o (lit "startingBalance")) = true
  \/ null_or_missing (get_property o (lit "endingBalance")) = true
  \/ (exists v, get_property o (lit "transactions") = Some v
                /\ truthy (Some v) = false) ->
  performReconciliationJson
    (getDetailsFromLlm engine_message apiKey text (LlmParsed (JsonObject o)))
  = inr {| calculatedEndingBalance := None; difference := None; matches := false |}.
Proof.
  intros Hkey Htext H.
  rewrite (getDetailsFromLlm_parsed engine_message apiKey text o Hkey Htext).
  apply performReconciliationJson_insufficient, fill_defaults_insufficient.
  destruct H as [H | [H | [v [Hget Hv]]]].
  - rewrite H. reflexivity.
  - rewrite H. apply orb_true_iff. left. apply orb_true_r.
  - unfold has_property. rewrite Hget, Hv. apply orb_true_r.
Qed.

Lemma X10_witness :
  performReconciliationJson
    (getDetailsFromLlm (fun _ => []) (Some (lit "key")) (repeat 65%N 60)
       (LlmParsed (JsonObject [(lit "startingBalance", JsonNumber (of_Z 1200));
                               (lit "transactions", JsonArray [])])))
  = inr {| calculatedEndingBalance := None; difference := None; matches := false |}.
Proof.
  apply (X10_incomplete_answer_is_insufficient (fun _ => []) (Some (lit "key"))
           (repeat 65%N 60)
           [(lit "startingBalance", JsonNumber (of_Z 1200));
            (lit "transactions", JsonArray [])]);
    [reflexivity | reflexivity |].
  right. left. reflexivity.
Defined.

(** * POST *)

Lemma or_default_nonempty (a b : jsstring) :
  b <> [] -> or_default a b <> [].
Proof. destruct a; cbn [or_default]; [auto | discriminate]. Qed.

Lemma server_error_details (message : jsstring) :
  exists error c details,
    body_of (server_error message) = ErrorBody error (Some (c :: details)).
Proof.
  unfold server_error. cbn [body_of NextResponse_json].
  destruct (or_default message (lit "Unknown error.")) as [| c details] eqn:E.
  - apply or_default_nonempty in E; [contradiction | discriminate].
  - eauto.
Qed.

Lemma get_property_serialized (o : object) (k : jsstring) :
  get_property (serialized_object o) k
  = option_map serialized (get_property o k).
Proof.
  induction o as [| [k' v] o IH]; [reflexivity |].
  cbn [serialized_object map get_property].
  destruct (str_eqb k' k); [reflexivity | exact IH].
Qed.

Lemma serialized_object_app (o o' : object) :
  serialized_object (o ++ o') = serialized_object o ++ serialized_object o'.
Proof. apply map_app. Qed.

(** The status of the response, branch by branch. *)
Lemma POST_status (engine_message : type_error -> jsstring) form pdf apiKey llm :
  status (POST engine_message form pdf apiKey llm)
  = match form with
    | FormThrew _ => 500
    | FormData None => 400
    | FormData (Some f) =>
        if str_eqb (file_type f) (lit "application/pdf") then
          match pdf with
          | BufferThrew _ | PdfThrew => 500
          | PdfText text =>
              if too_short text then 200
              else
                let data := getDetailsFromLlm engine_message apiKey text llm in
                if returns (performReconciliationJson data)
                   && returns (response_message
                                 (get_property data (lit "accountHolderName")))
                then 200 else 500
          end
        else 400
    end%nat.
Proof.
  unfold POST. destruct form as [message | [f |]]; try reflexivity.
  destruct (str_eqb (file_type f) (lit "application/pdf")); cbn [negb];
    [| reflexivity].
  destruct pdf as [message | | text]; try reflexivity.
  destruct (too_short text); [reflexivity |]. cbv zeta.
  destruct (performReconciliationJson _) as [e | r]; [reflexivity |].
  destruct (response_message _) as [e | message]; reflexivity.
Qed.

(** The handler past its two checks of the file and of the text. *)
Lemma POST_extracted (engine_message : type_error -> jsstring) f text apiKey llm :
  file_type f = lit "application/pdf" -> too_short text = false ->
  POST engine_message (FormData (Some f)) (PdfText text) apiKey llm
  = let data := getDetailsFromLlm engine_message apiKey text llm in
    match performReconciliationJson data with
    | inl e => server_error (engine_message e)
    | inr reconciliationResult =>
        match response_message (get_property data (lit "accountHolderName")) with
        | inl e => server_error (engine_message e)
        | inr message =>
            NextResponse_json
              (ResultBody
                 (set_property data (lit "rawPdfText")
                    (JsonString (snippet 1000 text)))
                 reconciliationResult message)
              200
        end
    end.
Proof.
  intros Htype Htext. unfold POST.
  rewrite Htype, str_eqb_refl, Htext. reflexivity.
Qed.

Lemma short_text_too_short (text : jsstring) :
  (List.length text < 50)%nat \/ forallb is_white_space text = true ->
  too_short text = true.
Proof.
  intros H. rewrite too_short_length. apply Nat.ltb_lt.
  destruct H as [H | H].
  - pose proof (trim_length text). lia.
  - rewrite (trim_all_space text H). cbn [List.length]. lia.
Qed.

(** ** Properties of the handler *)

(** X11. The handler answers 400 exactly when the form has no [pdfFile],
    or a file whose type is not application/pdf; nothing read later can
    give that status. *)
Theorem X11_rejected_iff_no_pdf_file (engine_message : type_error -> jsstring)
    (form : form_outcome) (pdf : pdf_outcome) (apiKey : option jsstring)
    (llm : llm_outcome) :
  status (POST engine_message form pdf apiKey llm) = 400%nat
  <-> match form with
      | FormThrew _ => False
      | FormData None => True
      | FormData (Some f) => file_type f <> lit "application/pdf"
      end.
Proof.
  rewrite POST_status. destruct form as [message | [f |]].
  - split; [discriminate | contradiction].
  - destruct (str_eqb (file_type f) (lit "application/pdf")) eqn:E.
    + apply str_eqb_eq in E.
      split; [| intros H; contradiction].
      destruct pdf as [message | | text]; try discriminate.
      destruct (too_short text); [discriminate |]. cbv zeta.
      destruct (returns _ && returns _); discriminate.
    + split; [| reflexivity].
      intros _ Heq. rewrite Heq, str_eqb_refl in E. discriminate E.
  - split; [exact (fun _ => I) | reflexivity].
Qed.

(** X12. Every response has status 200 with extracted data, a
    reconciliation and a message, status 400 with an error and no
    details, or status 500 with an error and non-empty details. *)
Theorem X12_three_kinds_of_response (engine_message : type_error -> jsstring)
    (form : form_outcome) (pdf : pdf_outcome) (apiKey : option jsstring)
    (llm : llm_outcome) :
  let r := POST engine_message form pdf apiKey llm in
  (status r = 200%nat
   /\ exists data reconciliation message,
        body_of r = ResultBody data reconciliation message)
  \/ (status r = 400%nat /\ exists error, body_of r = ErrorBody error None)
  \/ (status r = 500%nat
      /\ exists error c details,
           body_of r = ErrorBody error (Some (c :: details))).
Proof.
  assert (Herr : forall message,
            status (server_error message) = 500%nat
            /\ exists error c details,
                 body_of (server_error message)
                 = ErrorBody error (Some (c :: details))).
  { intros message. split; [reflexivity | apply server_error_details]. }
  cbv zeta. unfold POST. destruct form as [message | [f |]].
  - right. right. apply Herr.
  - destruct (str_eqb (file_type f) (lit "application/pdf")); cbn [negb];
      [| right; left; split; [reflexivity | eexists; reflexivity]].
    destruct pdf as [message | | text]; try (right; right; apply Herr).
    destruct (too_short text);
      [left; split; [reflexivity | do 3 eexists; reflexivity] |].
    destruct (performReconciliationJson _) as [e | reconciliation];
      [right; right; apply Herr |].
    destruct (response_message _) as [e | message];
      [right; right; apply Herr |].
    left. split; [reflexivity | do 3 eexists; reflexivity].
  - right. left. split; [reflexivity | eexists; reflexivity].
Qed.

(** X13. A PDF whose text has fewer than 50 code units, or only white
    space, is answered with the parsing-issue body, whatever the key is
    and whatever the model would answer. *)
Theorem X13_short_text_is_a_parsing_issue
    (engine_message : type_error -> jsstring)
    (f : File) (text : jsstring) (apiKey : option jsstring) (llm : llm_outcome) :
  file_type f = lit "application/pdf" ->
  (List.length text < 50)%nat \/ forallb is_white_space text = true ->
  POST engine_message (FormData (Some f)) (PdfText text) apiKey llm
  = parsing_issue text.
Proof.
  intros Htype Htext. unfold POST.
  rewrite Htype, str_eqb_refl, (short_text_too_short text Htext). reflexivity.
Qed.

Lemma X13_witness :
  POST (fun _ => []) (FormData (Some {| file_name := lit "scan.pdf";
                                        file_type := lit "application/pdf" |}))
       (PdfText (lit "  Page 1  ")) (Some (lit "key")) LlmEmpty
  = parsing_issue (lit "  Page 1  ").
Proof.
  apply (X13_short_text_is_a_parsing_issue (fun _ => [])
           {| file_name := lit "scan.pdf"; file_type := lit "application/pdf" |}
           (lit "  Page 1  ") (Some (lit "key")) LlmEmpty).
  - reflexivity.
  - left. cbn. lia.
Defined.

(** X14. A text that is blank for [getDetailsFromLlm] is too short for
    [POST]: the handler never calls the extraction on blank text. *)
Theorem X14_blank_text_is_too_short (text : jsstring) :
  blank text = true -> too_short text = true.
Proof.
  intros H. destruct (too_short text) eqn:E; [reflexivity |].
  rewrite (too_short_blank text E) in H. discriminate H.
Qed.

Lemma X14_witness : too_short (lit "   ") = true.
Proof. apply (X14_blank_text_is_too_short (lit "   ")). reflexivity. Defined.

(** X15. In every body with extracted data, [rawPdfText] is the text of
    the PDF cut after 500 or 1000 code units, with three dots when
    something was cut: at most 1003 units, and the whole text when it
    has at most 500.  A [rawPdfText] in the answer of the model is
    overwritten. *)
Theorem X15_raw_text_is_a_bounded_snippet
    (engine_message : type_error -> jsstring)
    (form : form_outcome) (pdf : pdf_outcome) (apiKey : option jsstring)
    (llm : llm_outcome) (data : object) (reconciliation : ReconciliationResult)
    (message : jsstring) :
  body_of (POST engine_message form pdf apiKey llm)
  = ResultBody data reconciliation message ->
  exists text s,
    pdf = PdfText text
    /\ get_property data (lit "rawPdfText") = Some (JsonString s)
    /\ (s = snippet 500 text \/ s = snippet 1000 text)
    /\ (List.length s <= 1003)%nat
    /\ ((List.length text <= 500)%nat -> s = text).
Proof.
  unfold POST. destruct form as [m | [f |]]; try discriminate.
  destruct (negb (str_eqb (file_type f) (lit "application/pdf")));
    [discriminate |].
  destruct pdf as [m | | text]; try discriminate.
  destruct (too_short text).
  - cbn [parsing_issue body_of]. intros H. injection H as <- _ _.
    exists text, (snippet 500 text). repeat split.
    + left. reflexivity.
    + pose proof (snippet_length 500 text). lia.
    + apply snippet_short.
  - cbv zeta.
    destruct (performReconciliationJson _) as [e | r]; [discriminate |].
    destruct (response_message _) as [e | m]; [discriminate |].
    cbn [body_of]. intros H. injection H as <- _ _.
    exists text, (snippet 1000 text). repeat split.
    + rewrite get_property_serialized, get_set_same. reflexivity.
    + right. reflexivity.
    + pose proof (snippet_length 1000 text). lia.
    + intros Hlen. apply snippet_short. lia.
Qed.

Lemma X15_witness :
  exists text s,
    PdfText (lit "  Page 1  ") = PdfText text
    /\ get_property
         [(lit "accountHolderName", JsonString (lit "Parsing Issue"));
          (lit "accountHolderAddress",
            JsonString (lit "Extracted text was too short or empty. The PDF might be scanned, password-protected, or have no selectable text."));
          (lit "statementDate", JsonString (lit "N/A"));
          (lit "transactions", JsonArray []);
          (lit "startingBalance", JsonNull);
          (lit "endingBalance", JsonNull);
          (lit "rawPdfText", JsonString (lit "  Page 1  "))]
         (lit "rawPdfText") = Some (JsonString s)
    /\ (s = snippet 500 text \/ s = snippet 1000 text)
    /\ (List.length s <= 1003)%nat
    /\ ((List.length text <= 500)%nat -> s = text).
Proof.
  apply (X15_raw_text_is_a_bounded_snippet (fun _ => [])
           (FormData (Some {| file_name := lit "scan.pdf";
                              file_type := lit "application/pdf" |}))
           (PdfText (lit "  Page 1  ")) (Some (lit "key")) LlmEmpty
           _ insufficient
           (lit "PDF parsed, but content was minimal or empty. Please ensure it's a text-based PDF.")).
  reflexivity.
Defined.

(** X16. Without an API key a PDF with enough text is answered with
    status 200, the empty extraction named after the missing key, the
    result for insufficient data, and the message that the extraction is
    complete: the name does not begin with the prefix the handler tests. *)
Theorem X16_missing_key_reported_as_complete
    (engine_message : type_error -> jsstring)
    (f : File) (text : jsstring) (apiKey : option jsstring) (llm : llm_outcome) :
  file_type f = lit "application/pdf" -> too_short text = false ->
  key_missing apiKey = true ->
  POST engine_message (FormData (Some f)) (PdfText text) apiKey llm
  = {| status := 200;
       body_of :=
         ResultBody
           (empty_extraction
              (JsonString (lit "Error: Gemini API Key Missing or Invalid"))
            ++ [(lit "rawPdfText", JsonString (snippet 1000 text))])
           {| calculatedEndingBalance := None; difference := None;
              matches := false |}
           (lit "PDF processed and LLM extraction complete.") |}.
Proof.
  intros Htype Htext Hkey.
  rewrite (POST_extracted engine_message f text apiKey llm Htype Htext).
  unfold getDetailsFromLlm. rewrite Hkey. reflexivity.
Qed.

Lemma X16_witness :
  POST (fun _ => []) (FormData (Some {| file_name := lit "may.pdf";
                                        file_type := lit "application/pdf" |}))
       (PdfText (repeat 65%N 60)) None LlmEmpty
  = {| status := 200;
       body_of :=
         ResultBody
           (empty_extraction
              (JsonString (lit "Error: Gemini API Key Missing or Invalid"))
            ++ [(lit "rawPdfText", JsonString (snippet 1000 (repeat 65%N 60)))])
           {| calculatedEndingBalance := None; difference := None;
              matches := false |}
           (lit "PDF processed and LLM extraction complete.") |}.
Proof.
  apply (X16_missing_key_reported_as_complete (fun _ => [])
           {| file_name := lit "may.pdf"; file_type := lit "application/pdf" |}
           (repeat 65%N 60) None LlmEmpty); reflexivity.
Defined.

(** X17. With a key, when the call of the model throws, answers nothing
    or answers a primitive, the handler still answers 200: the empty
    extraction under a name that begins with "Error: Gemini LLM Failed",
    the result for insufficient data, and the message that the
    extraction had an issue. *)
Theorem X17_model_failure_is_reported
    (engine_message : type_error -> jsstring)
    (f : File) (text : jsstring) (apiKey : option jsstring) (llm : llm_outcome) :
  file_type f = lit "application/pdf" -> too_short text = false ->
  key_missing apiKey = false -> parsed_object llm = None ->
  exists details : jsstring,
    POST engine_message (FormData (Some f)) (PdfText text) apiKey llm
    = {| status := 200;
         body_of :=
           ResultBody
             (empty_extraction
                (JsonString (lit "Error: Gemini LLM Failed (Details: "
                             ++ details ++ lit ")"))
              ++ [(lit "rawPdfText", JsonString (snippet 1000 text))])
             {| calculatedEndingBalance := None; difference := None;
                matches := false |}
             (lit "PDF processed, but there was an issue with LLM data extraction.") |}.
Proof.
  intros Htype Htext Hkey Hllm.
  rewrite (POST_extracted engine_message f text apiKey llm Htype Htext).
  assert (H : exists message,
            getDetailsFromLlm engine_message apiKey text llm
            = empty_extraction (llm_failed message)).
  { unfold getDetailsFromLlm. rewrite Hkey, (too_short_blank text Htext).
    destruct llm as [message | | v]; try (eexists; reflexivity).
    cbn [parsed_object] in Hllm. rewrite Hllm. eexists; reflexivity. }
  destruct H as [message ->].
  exists (or_default message (lit "Unknown error")).
  cbv zeta. rewrite empty_extraction_insufficient.
  change (get_property (empty_extraction (llm_failed message))
                       (lit "accountHolderName"))
    with (Some (llm_failed message)).
  rewrite llm_failed_message. reflexivity.
Qed.

Lemma X17_witness :
  exists details : jsstring,
    POST (fun _ => []) (FormData (Some {| file_name := lit "may.pdf";
                                          file_type := lit "application/pdf" |}))
         (PdfText (repeat 65%N 60)) (Some (lit "key")) LlmEmpty
    = {| status := 200;
         body_of :=
           ResultBody
             (empty_extraction
                (JsonString (lit "Error: Gemini LLM Failed (Details: "
                             ++ details ++ lit ")"))
              ++ [(lit "rawPdfText", JsonString (snippet 1000 (repeat 65%N 60)))])
             {| calculatedEndingBalance := None; difference := None;
                matches := false |}
             (lit "PDF processed, but there was an issue with LLM data extraction.") |}.
Proof.
  apply (X17_model_failure_is_reported (fun _ => [])
           {| file_name := lit "may.pdf"; file_type := lit "application/pdf" |}
           (repeat 65%N 60) (Some (lit "key")) LlmEmpty); reflexivity.
Defined.

Lemma response_message_typed (data : ExtractedData) :
  returns (response_message
             (get_property (json_of_data data) (lit "accountHolderName"))) = true.
Proof.
  change (get_property (json_of_data data) (lit "accountHolderName"))
    with (Some (json_of_string (accountHolderName data))).
  destruct (accountHolderName data) as [s |]; [| reflexivity].
  unfold json_of_string, response_message.
  destruct (truthy (Some (JsonString (lit s)))); reflexivity.
Qed.

(** X18. When the model answers with an object of the declared types,
    the handler answers 200 with that object and the raw text, and the
    reconciliation in the body is the result of the typed
    [performReconciliation] on the data, both as JSON carries them: a
    NaN or infinite number as [null], [-0] as [0], everything else as it
    is. *)
Theorem X18_typed_answer_is_reconciled
    (engine_message : type_error -> jsstring)
    (f : File) (text : jsstring) (apiKey : option jsstring)
    (data : ExtractedData) :
  file_type f = lit "application/pdf" -> too_short text = false ->
  key_missing apiKey = false ->
  exists (r : ReconciliationResult) (message : jsstring),
    returned (performReconciliation data) = Some r
    /\ POST engine_message (FormData (Some f)) (PdfText text) apiKey
            (LlmParsed (JsonObject (json_of_data data)))
       = {| status := 200;
            body_of :=
              ResultBody
                (serialized_object (json_of_data data)
                 ++ [(lit "rawPdfText", JsonString (snippet 1000 text))])
                {| calculatedEndingBalance :=
                     serialized_number (calculatedEndingBalance r);
                   difference := serialized_number (difference r);
                   matches := matches r |}
                message |}.
Proof.
  intros Htype Htext Hkey.
  rewrite (POST_extracted engine_message f text apiKey _ Htype Htext).
  rewrite (getDetailsFromLlm_parsed engine_message apiKey text _ Hkey Htext).
  rewrite fill_defaults_typed. cbv zeta.
  rewrite performReconciliationJson_typed.
  pose proof (response_message_typed data) as Hm.
  destruct (response_message _) as [e | message]; [discriminate Hm |].
  exists (reconciliation_of data), message.
  split; [apply returned_reconciliation_of |].
  unfold NextResponse_json, serialized_result.
  change (set_property (json_of_data data) (lit "rawPdfText")
            (JsonString (snippet 1000 text)))
    with (json_of_data data
          ++ [(lit "rawPdfText", JsonString (snippet 1000 text))]).
  rewrite serialized_object_app. reflexivity.
Qed.

Lemma X18_witness :
  exists (r : ReconciliationResult) (message : jsstring),
    returned (performReconciliation example_statement) = Some r
    /\ POST (fun _ => [])
            (FormData (Some {| file_name := lit "may.pdf";
                               file_type := lit "application/pdf" |}))
            (PdfText (repeat 65%N 60)) (Some (lit "key"))
            (LlmParsed (JsonObject (json_of_data example_statement)))
       = {| status := 200;
            body_of :=
              ResultBody
                (serialized_object (json_of_data example_statement)
                 ++ [(lit "rawPdfText", JsonString (snippet 1000 (repeat 65%N 60)))])
                {| calculatedEndingBalance :=
                     serialized_number (calculatedEndingBalance r);
                   difference := serialized_number (difference r);
                   matches := matches r |}
                message |}.
Proof.
  apply (X18_typed_answer_is_reconciled (fun _ => [])
           {| file_name := lit "may.pdf"; file_type := lit "application/pdf" |}
           (repeat 65%N 60) (Some (lit "key")) example_statement); reflexivity.
Defined.

(** X19. When the model gives the ending balance as a string, next to a
    numeric starting balance and an array of transactions without
    [null], the whole request fails with status 500: [toFixed] is called
    on the string. *)
Theorem X19_string_balance_fails_the_request
    (engine_message : type_error -> jsstring)
    (f : File) (text : jsstring) (apiKey : option jsstring)
    (o : object) (start : number) (balance : jsstring) (l : list json) :
  file_type f = lit "application/pdf" -> too_short text = false ->
  key_missing apiKey = false ->
  get_property o (lit "startingBalance") = Some (JsonNumber start) ->
  get_property o (lit "endingBalance") = Some (JsonString balance) ->
  get_property o (lit "transactions") = Some (JsonArray l) ->
  no_null_element l = true ->
  POST engine_message (FormData (Some f)) (PdfText text) apiKey
       (LlmParsed (JsonObject o))
  = {| status := 500;
       body_of :=
         ErrorBody
           (lit "An unexpected server error occurred while processing the PDF.")
           (Some (or_default (engine_message EndingNotNumber)
                             (lit "Unknown error."))) |}.
Proof.
  intros Htype Htext Hkey Hs He Ht Hl.
  rewrite (POST_extracted engine_message f text apiKey _ Htype Htext).
  rewrite (getDetailsFromLlm_parsed engine_message apiKey text _ Hkey Htext).
  cbv zeta.
  assert (Hrec : performReconciliationJson (fill_defaults o) = inl EndingNotNumber).
  { assert (Hs' : get_property (fill_defaults o) (lit "startingBalance")
                   = Some (JsonNumber start))
      by (rewrite fill_defaults_get, Hs; reflexivity).
    assert (He' : get_property (fill_defaults o) (lit "endingBalance")
                   = Some (JsonString balance))
      by (rewrite fill_defaults_get, He; reflexivity).
    assert (Ht' : get_property (fill_defaults o) (lit "transactions")
                   = Some (JsonArray l))
      by (rewrite fill_defaults_get, Ht; reflexivity).
    unfold performReconciliationJson. rewrite Hs', He', Ht'.
    cbn [strict_null truthy orb negb array_of bindR].
    pose proof (filter_valid_no_null l Hl) as Hret.
    destruct (filter_valid l) as [e | kept]; [discriminate Hret |].
    cbn [bindR plus_sum]. rewrite builtin_toFixed. reflexivity. }
  rewrite Hrec. reflexivity.
Qed.

Lemma X19_witness :
  POST (fun _ => lit "data.endingBalance.toFixed is not a function")
       (FormData (Some {| file_name := lit "may.pdf";
                          file_type := lit "application/pdf" |}))
       (PdfText (repeat 65%N 60)) (Some (lit "key"))
       (LlmParsed (JsonObject [(lit "startingBalance", JsonNumber (of_Z 1200));
                               (lit "endingBalance", JsonString (lit "1550.00"));
                               (lit "transactions", JsonArray [])]))
  = {| status := 500;
       body_of :=
         ErrorBody
           (lit "An unexpected server error occurred while processing the PDF.")
           (Some (or_default (lit "data.endingBalance.toFixed is not a function")
                             (lit "Unknown error."))) |}.
Proof.
  apply (X19_string_balance_fails_the_request
           (fun _ => lit "data.endingBalance.toFixed is not a function")
           {| file_name := lit "may.pdf"; file_type := lit "application/pdf" |}
           (repeat 65%N 60) (Some (lit "key"))
           [(lit "startingBalance", JsonNumber (of_Z 1200));
            (lit "endingBalance", JsonString (lit "1550.00"));
            (lit "transactions", JsonArray [])]
           (of_Z 1200) (lit "1550.00") []); reflexivity.
Defined.

(** X20. For a PDF file whose text could be read, the handler answers
    200 exactly when the text is too short, or the extracted object
    passes [performReconciliation] (its guard holds or it is well typed)
    and its [accountHolderName] converts to false or is a string. *)
Theorem X20_success_iff (engine_message : type_error -> jsstring)
    (f : File) (text : jsstring) (apiKey : option jsstring) (llm : llm_outcome) :
  file_type f = lit "application/pdf" ->
  let data := getDetailsFromLlm engine_message apiKey text llm in
  status (POST engine_message (FormData (Some f)) (PdfText text) apiKey llm)
  = 200%nat
  <-> too_short text = true
      \/ ((insufficient_data data = true \/ reconcilable data = true)
          /\ match get_property data (lit "accountHolderName") with
             | Some (JsonString _) => True
             | name => truthy name = false
             end).
Proof.
  intros Htype. cbv zeta. rewrite POST_status, Htype, str_eqb_refl.
  destruct (too_short text); [split; [auto | reflexivity] |]. cbv zeta.
  rewrite performReconciliationJson_returns, <- orb_true_iff.
  set (data := getDetailsFromLlm engine_message apiKey text llm).
  assert (Hname : returns (response_message
                             (get_property data (lit "accountHolderName"))) = true
                  <-> match get_property data (lit "accountHolderName") with
                      | Some (JsonString _) => True
                      | name => truthy name = false
                      end).
  { unfold response_message.
    destruct (get_property data (lit "accountHolderName"))
      as [[| b | x | s | l | o] |]; cbn [truthy returns];
      try (split; [reflexivity | reflexivity]);
      try (split; [discriminate | discriminate]).
    - destruct b; cbn [returns]; split; (reflexivity || discriminate).
    - destruct x; cbn [returns]; split; (reflexivity || discriminate).
    - destruct s; cbn [returns]; split; auto. }
  rewrite <- Hname.
  destruct (insufficient_data data || reconcilable data);
    destruct (returns (response_message _)); cbn [andb]; split;
    try reflexivity; try discriminate;
    try (intros [H | [H1 H2]]; discriminate);
    intros _; right; split; reflexivity.
Qed.

Lemma X20_witness :
  status (POST (fun _ => [])
               (FormData (Some {| file_name := lit "may.pdf";
                                  file_type := lit "application/pdf" |}))
               (PdfText (repeat 65%N 60)) (Some (lit "key"))
               (LlmParsed (JsonNumber (of_Z 7))))
  = 200%nat
  <-> too_short (repeat 65%N 60) = true
      \/ ((insufficient_data
             (getDetailsFromLlm (fun _ => []) (Some (lit "key")) (repeat 65%N 60)
                (LlmParsed (JsonNumber (of_Z 7)))) = true
           \/ reconcilable
                (getDetailsFromLlm (fun _ => []) (Some (lit "key")) (repeat 65%N 60)
                   (LlmParsed (JsonNumber (of_Z 7)))) = true)
          /\ match get_property
                     (getDetailsFromLlm (fun _ => []) (Some (lit "key"))
                        (repeat 65%N 60) (LlmParsed (JsonNumber (of_Z 7))))
                     (lit "accountHolderName") with
             | Some (JsonString _) => True
             | name => truthy name = false
             end).
Proof.
  apply (X20_success_iff (fun _ => [])
           {| file_name := lit "may.pdf"; file_type := lit "application/pdf" |}
           (repeat 65%N 60) (Some (lit "key")) (LlmParsed (JsonNumber (of_Z 7)))).
  reflexivity.
Defined.

(** * The page *)

Lemma file_invariant_step (st : Page.State) (ev : Page.event) :
  file_invariant st -> file_invariant (Page.step st ev).
Proof.
  unfold file_invariant. intros H. destruct ev as [files | | outcome].
  - cbn [Page.step]. unfold Page.handleFileChange.
    destruct files as [[| selectedFile rest] |]; try reflexivity.
    destruct (str_eqb (file_type selectedFile) (lit "application/pdf")) eqn:E;
      cbn [Page.file Page.fileName]; [| reflexivity].
    apply str_eqb_eq in E. split; [exact E | reflexivity].
  - cbn [Page.step]. unfold Page.submit_start.
    destruct (Page.file st) as [f |] eqn:Hf; cbn [fst Page.file Page.fileName];
      rewrite ?Hf; exact H.
  - cbn [Page.step]. unfold Page.submit_finish.
    destruct outcome as [message | [|] code statusText result];
      cbn [Page.file Page.fileName]; exact H.
Qed.

Lemma file_invariant_run (events : list Page.event) : forall st : Page.State,
  file_invariant st -> file_invariant (fold_left Page.step events st).
Proof.
  induction events as [| ev events IH]; intros st H; cbn [fold_left];
    [exact H | apply IH, file_invariant_step, H].
Qed.

Lemma file_invariant_reachable (events : list Page.event) :
  file_invariant (Page.run events).
Proof. apply file_invariant_run. reflexivity. Qed.

(** X21. After any sequence of file selections, submissions and
    answers, in any order, a file the page holds has the type
    application/pdf and [fileName] is its name; without a file
    [fileName] is empty. *)
Theorem X21_page_holds_only_pdf_files (events : list Page.event) :
  match Page.file (Page.run events) with
  | Some f =>
      file_type f = lit "application/pdf"
      /\ Page.fileName (Page.run events) = file_name f
  | None => Page.fileName (Page.run events) = []
  end.
Proof. exact (file_invariant_reachable events). Qed.

(** X22. A request the page sends, in whatever state it was reached,
    carries a PDF file, so the handler never answers it with 400. *)
Theorem X22_page_requests_are_not_rejected
    (engine_message : type_error -> jsstring)
    (events : list Page.event) (f : File)
    (pdf : pdf_outcome) (apiKey : option jsstring) (llm : llm_outcome) :
  snd (Page.submit_start (Page.run events)) = Some f ->
  file_type f = lit "application/pdf"
  /\ status (POST engine_message (FormData (Some f)) pdf apiKey llm) <> 400%nat.
Proof.
  intros Hsend. pose proof (file_invariant_reachable events) as Hinv.
  unfold file_invariant in Hinv. unfold Page.submit_start in Hsend.
  destruct (Page.file (Page.run events)) as [g |]; [| discriminate Hsend].
  cbn [snd] in Hsend. injection Hsend as ->. destruct Hinv as [Htype _].
  split; [exact Htype |].
  rewrite POST_status, Htype, str_eqb_refl.
  destruct pdf as [message | | text]; try discriminate.
  destruct (too_short text); [discriminate |]. cbv zeta.
  destruct (returns _ && returns _); discriminate.
Qed.

Lemma X22_witness :
  file_type {| file_name := lit "may.pdf"; file_type := lit "application/pdf" |}
  = lit "application/pdf"
  /\ status (POST (fun _ => [])
                  (FormData (Some {| file_name := lit "may.pdf";
                                     file_type := lit "application/pdf" |}))
                  PdfThrew None LlmEmpty) <> 400%nat.
Proof.
  apply (X22_page_requests_are_not_rejected (fun _ => [])
           [Page.FileChange
              (Some [{| file_name := lit "notes.txt"; file_type := lit "text/plain" |}]);
            Page.FileChange
              (Some [{| file_name := lit "may.pdf";
                        file_type := lit "application/pdf" |}])]
           {| file_name := lit "may.pdf"; file_type := lit "application/pdf" |}
           PdfThrew None LlmEmpty).
  reflexivity.
Defined.

(** X23. [handleSubmit] with a file selected ends not loading and with
    the file kept; an answer with [ok] is stored and leaves no error,
    any other outcome leaves no answer and a non-empty error message. *)
Theorem X23_submit_settles (outcome : Page.fetch_outcome) (st : Page.State)
    (f : File) :
  Page.file st = Some f ->
  let st' := Page.handleSubmit outcome st in
  Page.isLoading st' = false
  /\ Page.file st' = Some f
  /\ match outcome with
     | Page.Fetched true _ _ result =>
         Page.apiResponse st' = Some result /\ Page.error st' = None
     | _ =>
         Page.apiResponse st' = None
         /\ exists c message, Page.error st' = Some (c :: message)
     end.
Proof.
  intros Hf. cbv zeta. unfold Page.handleSubmit, Page.submit_start. rewrite Hf.
  unfold Page.submit_finish.
  destruct outcome as [message | [|] code statusText result];
    cbn [Page.isLoading Page.file Page.apiResponse Page.error];
    rewrite ?Hf; repeat split.
  - destruct message as [| c message]; cbn [or_default]; eexists _, _; reflexivity.
  - unfold Page.api_error.
    destruct (Page.response_error result) as [[| c e] |];
      cbn [or_default]; eexists _, _; reflexivity.
Qed.

Lemma X23_witness :
  let st := Page.run [Page.FileChange
                        (Some [{| file_name := lit "may.pdf";
                                  file_type := lit "application/pdf" |}])] in
  let st' := Page.handleSubmit (Page.FetchThrew (lit "Failed to fetch")) st in
  Page.isLoading st' = false
  /\ Page.file st' = Some {| file_name := lit "may.pdf";
                             file_type := lit "application/pdf" |}
  /\ Page.apiResponse st' = None
  /\ exists c message, Page.error st' = Some (c :: message).
Proof.
  apply (X23_submit_settles (Page.FetchThrew (lit "Failed to fetch"))
           (Page.run [Page.FileChange
                        (Some [{| file_name := lit "may.pdf";
                                  file_type := lit "application/pdf" |}])])
           {| file_name := lit "may.pdf"; file_type := lit "application/pdf" |}).
  reflexivity.
Defined.

Lemma settled_perform (st : Page.State) (a : Page.action) :
  settled st -> settled (Page.perform st a).
Proof.
  unfold settled. intros [Hload Hanswer]. destruct a as [files | outcome].
  - cbn [Page.perform]. unfold Page.handleFileChange.
    destruct files as [[| selectedFile rest] |];
      try (split; [exact Hload | exact I]).
    destruct (str_eqb (file_type selectedFile) (lit "application/pdf"));
      split; (exact Hload || exact I).
  - cbn [Page.perform]. unfold Page.handleSubmit, Page.submit_start.
    destruct (Page.file st) as [f |] eqn:Hf.
    + unfold Page.submit_finish.
      destruct outcome as [message | [|] code statusText result];
        cbn [Page.isLoading Page.apiResponse Page.error Page.file];
        split; try reflexivity; try exact I.
      split; [reflexivity | exists f; reflexivity].
    + cbn [Page.isLoading Page.apiResponse Page.error Page.file].
      split; [exact Hload |].
      destruct (Page.apiResponse st) as [result |]; [| exact I].
      destruct Hanswer as [_ [f Hf']]. discriminate Hf'.
Qed.

Lemma settled_run (actions : list Page.action) : forall st : Page.State,
  settled st -> settled (fold_left Page.perform actions st).
Proof.
  induction actions as [| a actions IH]; intros st H; cbn [fold_left];
    [exact H | apply IH, settled_perform, H].
Qed.

(** X24. When nothing happens while a request is pending, the page is
    never left loading, and it never holds an answer together with an
    error or without a file, whatever files are selected and whatever
    the requests give. *)
Theorem X24_answer_and_error_exclude_each_other (actions : list Page.action) :
  Page.isLoading (Page.run_atomic actions) = false
  /\ match Page.apiResponse (Page.run_atomic actions) with
     | Some _ =>
         Page.error (Page.run_atomic actions) = None
         /\ exists f, Page.file (Page.run_atomic actions) = Some f
     | None => True
     end.
Proof.
  apply (settled_run actions Page.initial). split; [reflexivity | exact I].
Qed.
